(** * Finder's Keeper: conversation threads

    A shallow embedding of the three message handlers of the Finder's Keeper
    back end:

    - [GetMessages/get_messages.py]       (thread aggregation, read path),
    - [SendReply/send_reply.py]           (thread resolution, write path),
    - [SendNotification/send_contact.py]  (first contact, write path),

    together with the properties of the conversation engine.

    Conventions of the embedding.
    - A Python [str] is a Rocq [string], one [ascii] per character; [<], [>]
      and [sorted] on strings compare character codes lexicographically, as
      [String.compare] does, and [len] is [String.length].
    - A stored message or item is a record carrying every attribute the two
      writers ([send_contact], [send_reply], [create_item]) put on it.
    - The request body is taken after JSON decoding, every attribute being
      either absent or a string.
    - A handler runs in a monad over the state of the two tables and the
      [RecipientIndex] secondary index; an exception leaves the state as it
      was when it was raised.  Every call of the table service is logged and
      may fail with a [ClientError].
    - [list.sort] is the stable sort; it is written as an insertion sort,
      whose result is the one every stable sort returns. *)

From Stdlib Require Import String Ascii List Bool Arith NArith Lia.
From Stdlib Require Import Sorted Permutation.
Import ListNotations.
Open Scope string_scope.

Set Implicit Arguments.

(* ===================================================================== *)
(** * Python strings: ordering *)
(* ===================================================================== *)

Module PyStr.

(** [a <= b] on [str]. *)
Definition le (a b : string) : Prop := String.leb a b = true.

(** [s.split('@')[0]]: the characters before the first [@]. *)
Fixpoint before_at (s : string) : string :=
  match s with
  | EmptyString => EmptyString
  | String c s' => if Ascii.eqb c "@"%char then EmptyString
                   else String c (before_at s')
  end.

(** [c * n] for a one-character string. *)
Fixpoint replicate (n : nat) (c : ascii) : string :=
  match n with
  | O => EmptyString
  | S n' => String c (replicate n' c)
  end.

End PyStr.

(* ===================================================================== *)
(** * Python lists: [list.sort(key=...)], [sum], [len] *)
(* ===================================================================== *)

Module PyList.

Section StableSort.
Variable A : Type.
(** [before x y]: [x] may stay in front of [y]. *)
Variable before : A -> A -> bool.

Fixpoint insert (x : A) (l : list A) : list A :=
  match l with
  | [] => [x]
  | y :: l' => if before x y then x :: y :: l' else y :: insert x l'
  end.

(** The head of the list came first: it is put in front of the first
    element it may precede, hence in front of every element with the same
    key. *)
Fixpoint stable_sort (l : list A) : list A :=
  match l with
  | [] => []
  | x :: l' => insert x (stable_sort l')
  end.
End StableSort.

(** [l.sort(key=key)] on string keys. *)
Definition sort_by_key (A : Type) (key : A -> string) (l : list A) : list A :=
  stable_sort (fun x y => String.leb (key x) (key y)) l.

(** [l.sort(key=key, reverse=True)]: descending, elements with equal keys
    keep their original order. *)
Definition sort_by_key_reverse (A : Type) (key : A -> string) (l : list A)
  : list A :=
  stable_sort (fun x y => String.leb (key y) (key x)) l.

(** [sorted(l)] on a list of strings. *)
Definition sorted (l : list string) : list string :=
  sort_by_key (fun s => s) l.

(** [sum(...)] over naturals. *)
Definition sum (l : list nat) : nat := fold_right Nat.add 0 l.

(** [l[i]] on a list of strings that is long enough. *)
Definition item (l : list string) (i : nat) : string := nth i l EmptyString.

End PyList.

(* ===================================================================== *)
(** * Data model *)
(* ===================================================================== *)

(** A row of the [FindersKeeper-Messages] table. *)
Record Message : Type := mkMessage {
  id : string;
  itemId : string;
  itemTitle : string;
  itemStatus : string;
  recipientUserId : string;
  recipientEmail : string;
  recipientName : string;
  senderUserId : string;
  senderEmail : string;
  senderName : string;
  message : string;
  createdAt : string;
  read : bool
}.

(** A row of the [FindersKeeper-Items] table, with the attributes the
    message handlers use. *)
Record Item : Type := mkItem {
  item_row_id : string;
  title : string;
  status : string;
  userId : string;
  userEmail : string;
  userName : string
}.

(** [event['requestContext']['authorizer']['claims']]. *)
Record Claims : Type := mkClaims {
  sub : option string;
  email : option string;
  name : option string
}.

(** The decoded request body of the two POST handlers. *)
Record Body : Type := mkBody {
  body_itemId : option string;
  body_recipientUserId : option string;
  body_message : option string
}.

(** The API Gateway event; [claims = None] when one of the keys
    [requestContext], [authorizer], [claims] is missing. *)
Record Event : Type := mkEvent {
  claims : option Claims;
  body : Body
}.

(** [uuid.uuid4()] and [datetime.utcnow().isoformat() + 'Z'] of one
    invocation. *)
Record Runtime : Type := mkRuntime {
  uuid4 : string;
  utcnow : string
}.

(* ===================================================================== *)
(** * GetMessages: the thread aggregator *)
(* ===================================================================== *)

Module GetMessages.

(** One value of the [threads] dictionary. *)
Record Thread : Type := mkThread {
  threadId : string;
  t_itemId : string;
  t_itemTitle : string;
  t_itemStatus : string;
  otherUserId : string;
  otherUserName : string;
  otherUserEmail : string;
  messages : list Message;
  lastMessageTime : string;
  unreadCount : nat
}.

(** [f"{item_id}#{user_ids[0]}#{user_ids[1]}"] with
    [user_ids = sorted([sender_id, recipient_id])]. *)
Definition thread_key (item_id sender_id recipient_id : string) : string :=
  let user_ids := PyList.sorted [sender_id; recipient_id] in
  item_id ++ "#" ++ PyList.item user_ids 0 ++ "#" ++ PyList.item user_ids 1.

Definition thread_id (msg : Message) : string :=
  thread_key (itemId msg) (senderUserId msg) (recipientUserId msg).

(** The [threads] dictionary: keys in insertion order. *)
Definition Threads : Type := list (string * Thread).

Fixpoint dict_get (k : string) (d : Threads) : option Thread :=
  match d with
  | [] => None
  | (k', t) :: d' => if String.eqb k k' then Some t else dict_get k d'
  end.

(** [d[k] = t]: an existing key keeps its position, a new one goes last. *)
Fixpoint dict_set (k : string) (t : Thread) (d : Threads) : Threads :=
  match d with
  | [] => [(k, t)]
  | (k', t') :: d' =>
      if String.eqb k k' then (k, t) :: d' else (k', t') :: dict_set k t d'
  end.

Definition dict_values (d : Threads) : list Thread := map snd d.

(** The thread created when [thread_id not in threads]. *)
Definition new_thread (user_id : string) (msg : Message) : Thread :=
  let sender_id := senderUserId msg in
  let recipient_id := recipientUserId msg in
  let from_other := negb (String.eqb sender_id user_id) in
  {| threadId := thread_id msg;
     t_itemId := itemId msg;
     t_itemTitle := itemTitle msg;
     t_itemStatus := itemStatus msg;
     otherUserId := if from_other then sender_id else recipient_id;
     otherUserName := if from_other then senderName msg else recipientName msg;
     otherUserEmail := if from_other then senderEmail msg else recipientEmail msg;
     messages := [];
     lastMessageTime := createdAt msg;
     unreadCount := 0 |}.

(** The three updates of the loop body on [threads[thread_id]]. *)
Definition add_message (user_id : string) (msg : Message) (t : Thread)
  : Thread :=
  {| threadId := threadId t;
     t_itemId := t_itemId t;
     t_itemTitle := t_itemTitle t;
     t_itemStatus := t_itemStatus t;
     otherUserId := otherUserId t;
     otherUserName := otherUserName t;
     otherUserEmail := otherUserEmail t;
     messages := (messages t ++ [msg])%list;
     lastMessageTime :=
       if String.ltb (lastMessageTime t) (createdAt msg)
       then createdAt msg else lastMessageTime t;
     unreadCount :=
       if String.eqb (recipientUserId msg) user_id && negb (read msg)
       then S (unreadCount t) else unreadCount t |}.

(** One iteration of [for msg in messages]. *)
Definition group_step (user_id : string) (threads : Threads) (msg : Message)
  : Threads :=
  let k := thread_id msg in
  let t := match dict_get k threads with
           | Some t => t
           | None => new_thread user_id msg
           end in
  dict_set k (add_message user_id msg t) threads.

Definition group_messages (user_id : string) (msgs : list Message)
  : Threads :=
  fold_left (group_step user_id) msgs [].

(** [thread['messages'].sort(key=lambda x: x.get('createdAt', ''))]. *)
Definition sort_thread (t : Thread) : Thread :=
  {| threadId := threadId t;
     t_itemId := t_itemId t;
     t_itemTitle := t_itemTitle t;
     t_itemStatus := t_itemStatus t;
     otherUserId := otherUserId t;
     otherUserName := otherUserName t;
     otherUserEmail := otherUserEmail t;
     messages := PyList.sort_by_key createdAt (messages t);
     lastMessageTime := lastMessageTime t;
     unreadCount := unreadCount t |}.

(** The dictionary returned by the handler. *)
Record Response : Type := mkResponse {
  threads : list Thread;
  totalThreads : nat;
  totalMessages : nat;
  total_unreadCount : nat
}.

(** Lines 151-213: from the combined message list to the response. *)
Definition aggregate (user_id : string) (msgs : list Message) : Response :=
  let grouped := group_messages user_id msgs in
  let thread_list :=
    PyList.sort_by_key_reverse lastMessageTime
      (map sort_thread (dict_values grouped)) in
  let total_unread := PyList.sum (map unreadCount thread_list) in
  {| threads := thread_list;
     totalThreads := List.length thread_list;
     totalMessages := List.length msgs;
     total_unreadCount := total_unread |}.

End GetMessages.


(* ===================================================================== *)
(** * The table service and the handler monad *)
(* ===================================================================== *)

Module Store.

(** The exceptions the handlers raise or catch. *)
Inductive PyExn : Type :=
| KeyError (key : string)
| ValueError (msg : string)
| NameError (name : string)
| ClientError (operation code msg : string)
| Exception (msg : string).

(** [str(e)]. *)
Definition str (e : PyExn) : string :=
  match e with
  | KeyError key => "'" ++ key ++ "'"
  | ValueError msg => msg
  | NameError name => "name '" ++ name ++ "' is not defined"
  | ClientError operation code msg =>
      "An error occurred (" ++ code ++ ") when calling the " ++ operation
        ++ " operation: " ++ msg
  | Exception msg => msg
  end.

(** A call of the DynamoDB service, as it is logged. *)
Inductive Call : Type :=
| Query (recipient : string) (forward : bool)
| Scan (limit : option nat)
| GetItem (key : string)
| PutItem (row : Message).

Definition operation_name (c : Call) : string :=
  match c with
  | Query _ _ => "Query"
  | Scan _ => "Scan"
  | GetItem _ => "GetItem"
  | PutItem _ => "PutItem"
  end.

Definition is_read (c : Call) : bool :=
  match c with
  | PutItem _ => false
  | _ => true
  end.

(** The state a handler runs against.
    - [messages_table]: the rows of the messages table, in scan order;
    - [recipient_index]: what the [RecipientIndex] secondary index shows, in
      the order of the index; it may lag behind the table;
    - [items_table]: the rows of the items table;
    - [faults n = Some (code, msg)]: the [n]-th service call raises a
      [ClientError];
    - [calls]: the service calls made so far. *)
Record World : Type := mkWorld {
  messages_table : list Message;
  recipient_index : list Message;
  items_table : list Item;
  faults : nat -> option (string * string);
  calls : list Call
}.

Definition log (c : Call) (w : World) : World :=
  {| messages_table := messages_table w;
     recipient_index := recipient_index w;
     items_table := items_table w;
     faults := faults w;
     calls := (calls w ++ [c])%list |}.

Definition append_row (row : Message) (w : World) : World :=
  {| messages_table := (messages_table w ++ [row])%list;
     recipient_index := recipient_index w;
     items_table := items_table w;
     faults := faults w;
     calls := calls w |}.

(** A computation either raises or returns, and leaves a state. *)
Definition M (A : Type) : Type := World -> (PyExn + A) * World.

Definition ret {A : Type} (a : A) : M A := fun w => (inr a, w).

Definition bind {A B : Type} (c : M A) (k : A -> M B) : M B :=
  fun w =>
    match c w with
    | (inl e, w') => (inl e, w')
    | (inr a, w') => k a w'
    end.

Definition raise {A : Type} (e : PyExn) : M A := fun w => (inl e, w).

(** [try: c  except ...: h e]. *)
Definition try_except {A : Type} (c : M A) (h : PyExn -> M A) : M A :=
  fun w =>
    match c w with
    | (inl e, w') => h e w'
    | (inr a, w') => (inr a, w')
    end.

(** One service call: logged, then failed or answered. *)
Definition service {A : Type} (c : Call) (answer : World -> A)
  (effect : World -> World) : M A :=
  fun w =>
    match faults w (List.length (calls w)) with
    | Some (code, msg) =>
        (inl (ClientError (operation_name c) code msg), log c w)
    | None => (inr (answer w), effect (log c w))
    end.

(** The entries of the index under the key [uid], in index order. *)
Definition index_rows (uid : string) (w : World) : list Message :=
  filter (fun m => String.eqb (recipientUserId m) uid) (recipient_index w).

(** [table.query(IndexName='RecipientIndex',
                 KeyConditionExpression='recipientUserId = :uid', ...)]. *)
Definition query_recipient_index (uid : string) (forward : bool)
  : M (list Message) :=
  service (Query uid forward)
    (fun w => if forward then index_rows uid w else rev (index_rows uid w))
    (fun w => w).

(** [table.scan(FilterExpression=..., Limit=limit)]: at most [limit] rows are
    read, and the filter is applied to the rows read. *)
Definition scan (keep : Message -> bool) (limit : option nat)
  : M (list Message) :=
  service (Scan limit)
    (fun w =>
       let rows := match limit with
                   | Some n => firstn n (messages_table w)
                   | None => messages_table w
                   end in
       filter keep rows)
    (fun w => w).

(** [items_table.get_item(Key={'id': key})]: the ['Item'] of the response,
    if any. *)
Definition get_item (key : string) : M (option Item) :=
  service (GetItem key)
    (fun w => find (fun it => String.eqb (item_row_id it) key) (items_table w))
    (fun w => w).

(** [table.put_item(Item=row)]. *)
Definition put_item (row : Message) : M unit :=
  service (PutItem row) (fun _ => tt) (append_row row).

(** [event['requestContext']['authorizer']['claims']]. *)
Definition get_claims (event : Event) : M Claims :=
  match claims event with
  | Some c => ret c
  | None => raise (KeyError "claims")
  end.

(** [d[key]] on a dictionary entry that may be absent. *)
Definition subscript (key : string) (v : option string) : M string :=
  match v with
  | Some s => ret s
  | None => raise (KeyError key)
  end.

(** Reading a module-level name. *)
Definition load_global (globals : list string) (name : string) : M unit :=
  if existsb (String.eqb name) globals then ret tt
  else raise (NameError name).

End Store.

Declare Scope handler_scope.
Delimit Scope handler_scope with handler.
Notation "x <- c ;; k" := (Store.bind c (fun x => k))
  (at level 61, c at next level, right associativity) : handler_scope.
Notation "c ;;; k" := (Store.bind c (fun _ => k))
  (at level 61, right associativity) : handler_scope.
Open Scope handler_scope.

Module GetMessagesHandler.
Import Store GetMessages.

(** The three [except] clauses of [lambda_handler]. *)
Definition on_error (e : PyExn) : M Response :=
  match e with
  | KeyError _ => raise (Exception "Unauthorized: Valid authentication required")
  | ClientError _ _ msg => raise (Exception ("Database error: " ++ msg))
  | _ => raise (Exception ("Internal server error: " ++ str e))
  end.

(** [get_messages.lambda_handler]. *)
Definition lambda_handler (event : Event) : M Response :=
  try_except
    (claims <- get_claims event ;;
     user_id <- subscript "sub" (sub claims) ;;
     user_email <- subscript "email" (email claims) ;;
     messages_received <- query_recipient_index user_id false ;;
     messages_sent <- scan (fun m => String.eqb (senderUserId m) user_id) None ;;
     let messages := (messages_received ++ messages_sent)%list in
     ret (aggregate user_id messages))
    on_error.

End GetMessagesHandler.

(* ===================================================================== *)
(** * Request validation shared by the two POST handlers *)
(* ===================================================================== *)

Module Validation.
Import Store.

(** [body[field]] when the key is there. *)
Definition body_get (field : string) (b : Body) : option string :=
  if String.eqb field "itemId" then body_itemId b
  else if String.eqb field "recipientUserId" then body_recipientUserId b
  else if String.eqb field "message" then body_message b
  else None.

(** Truth value of a string: the empty string is false. *)
Definition truthy (s : string) : bool := negb (String.eqb s EmptyString).

(** [for field in required_fields:
       if field not in body or not body[field]: raise ValueError(...)]. *)
Fixpoint check_required (required_fields : list string) (b : Body) : M unit :=
  match required_fields with
  | [] => ret tt
  | field :: rest =>
      match body_get field b with
      | Some v =>
          if truthy v then check_required rest b
          else raise (ValueError ("Missing required field: " ++ field))
      | None => raise (ValueError ("Missing required field: " ++ field))
      end
  end.

(** [if len(message) > 1000: raise ValueError(...)]. *)
Definition check_length (message_text : string) : M unit :=
  if Nat.ltb 1000 (String.length message_text)
  then raise (ValueError "Message must be less than 1000 characters")
  else ret tt.

(** [claims.get('name', user_email.split('@')[0])]. *)
Definition display_name (c : Claims) (user_email : string) : string :=
  match name c with
  | Some n => n
  | None => PyStr.before_at user_email
  end.

End Validation.

(* ===================================================================== *)
(** * SendReply: the thread resolver *)
(* ===================================================================== *)

Module SendReply.
Import Store Validation.

(** The names bound at module level in [send_reply.py]: the imports, the
    three assignments and the handler. *)
Definition module_globals : list string :=
  [ "json"; "boto3"; "ClientError"; "Decimal"; "os"; "datetime"; "uuid";
    "dynamodb_resource"; "user_to_user_messages_table_name";
    "user_to_user_messages_table";
    "send_reply_message_in_existing_conversation_thread" ].

(** What [existing_message] is bound to once it is found: a row of the
    messages table, or the four-key dictionary built from an item. *)
Inductive Existing : Type :=
| PriorMessage (msg : Message)
| ItemContext (item_title item_status : string).

(** [existing_message.get('itemTitle', 'Unknown Item')]. *)
Definition existing_itemTitle (x : Existing) : string :=
  match x with
  | PriorMessage msg => itemTitle msg
  | ItemContext item_title _ => item_title
  end.

(** [existing_message.get('itemStatus', 'unknown')]. *)
Definition existing_itemStatus (x : Existing) : string :=
  match x with
  | PriorMessage msg => itemStatus msg
  | ItemContext _ item_status => item_status
  end.

(** Lines 245-257: the recipient's name and e-mail address. *)
Definition recipient_details (x : Existing) (recipient_user_id : string)
  : string * string :=
  match x with
  | PriorMessage msg =>
      if String.eqb (senderUserId msg) recipient_user_id
      then (senderName msg, senderEmail msg)
      else if String.eqb (recipientUserId msg) recipient_user_id
      then (recipientName msg, recipientEmail msg)
      else ("User", EmptyString)
  | ItemContext _ _ => ("User", EmptyString)
  end.

(** The filter of the first query: the counterpart wrote to the user. *)
Definition match_received (item_id recipient_user_id : string) (msg : Message)
  : bool :=
  String.eqb (itemId msg) item_id
  && String.eqb (senderUserId msg) recipient_user_id.

(** The filter of the second query: the user wrote to the counterpart. *)
Definition match_sent (item_id user_id : string) (msg : Message) : bool :=
  String.eqb (itemId msg) item_id && String.eqb (senderUserId msg) user_id.

(** The [FilterExpression] of the scan. *)
Definition match_pair (item_id user_id recipient_user_id : string)
  (msg : Message) : bool :=
  String.eqb (itemId msg) item_id
  && ((String.eqb (senderUserId msg) user_id
       && String.eqb (recipientUserId msg) recipient_user_id)
      || (String.eqb (senderUserId msg) recipient_user_id
          && String.eqb (recipientUserId msg) user_id)).

(** The [Limit] of the scan. *)
Definition scan_limit : nat := 10.

(** Lines 159-177. *)
Definition step1 (item_id user_id recipient_user_id : string)
  : M (option Existing) :=
  response <- query_recipient_index user_id true ;;
  ret (option_map PriorMessage
         (find (match_received item_id recipient_user_id) response)).

(** Lines 179-195. *)
Definition step2 (item_id user_id recipient_user_id : string)
  (existing_message : option Existing) : M (option Existing) :=
  match existing_message with
  | Some _ => ret existing_message
  | None =>
      response <- query_recipient_index recipient_user_id true ;;
      ret (option_map PriorMessage (find (match_sent item_id user_id) response))
  end.

(** Lines 197-214. *)
Definition step3 (item_id user_id recipient_user_id : string)
  (existing_message : option Existing) : M (option Existing) :=
  match existing_message with
  | Some _ => ret existing_message
  | None =>
      response <- scan (match_pair item_id user_id recipient_user_id)
                    (Some scan_limit) ;;
      ret (option_map PriorMessage (hd_error response))
  end.

(** Lines 216-235.  The name [dynamodb] is read before the inner [try]. *)
Definition step4 (item_id : string) (existing_message : option Existing)
  : M (option Existing) :=
  match existing_message with
  | Some _ => ret existing_message
  | None =>
      load_global module_globals "dynamodb" ;;;
      try_except
        (item_response <- get_item item_id ;;
         ret (option_map (fun item_data =>
                            ItemContext (title item_data) (status item_data))
                item_response))
        (fun _ => ret None)
  end.

Definition not_found_message : string :=
  "Conversation thread not found - please wait a few seconds and try again (GSI sync delay)".

Definition self_message : string := "You cannot send a message to yourself".

(** Lines 259-277. *)
Definition message_record (rt : Runtime) (item_id recipient_user_id
  user_id user_email user_name message_text : string) (x : Existing)
  : Message :=
  let (recipient_name, recipient_email) :=
    recipient_details x recipient_user_id in
  {| id := uuid4 rt;
     itemId := item_id;
     itemTitle := existing_itemTitle x;
     itemStatus := existing_itemStatus x;
     recipientUserId := recipient_user_id;
     recipientEmail := recipient_email;
     recipientName := recipient_name;
     senderUserId := user_id;
     senderEmail := user_email;
     senderName := user_name;
     message := message_text;
     createdAt := utcnow rt;
     read := false |}.

(** The dictionary returned on success. *)
Record Reply : Type := mkReply {
  messageId : string;
  sentAt : string
}.

(** The four [except] clauses. *)
Definition on_error (e : PyExn) : M Reply :=
  match e with
  | KeyError _ => raise (Exception "Unauthorized: Valid authentication required")
  | ValueError _ => raise (Exception (str e))
  | ClientError _ _ msg => raise (Exception ("Database error: " ++ msg))
  | _ => raise (Exception ("Internal server error: " ++ str e))
  end.

(** Lines 137-153: the checks made before any lookup. *)
Definition validate (user_id : string) (body : Body)
  : M (string * string * string) :=
  check_required ["itemId"; "recipientUserId"; "message"] body ;;;
  item_id <- subscript "itemId" (body_get "itemId" body) ;;
  recipient_user_id <-
    subscript "recipientUserId" (body_get "recipientUserId" body) ;;
  message_text <- subscript "message" (body_get "message" body) ;;
  check_length message_text ;;;
  (if String.eqb recipient_user_id user_id
   then raise (ValueError self_message) else ret tt) ;;;
  ret (item_id, recipient_user_id, message_text).

(** Lines 155-235: the fallback chain. *)
Definition find_existing_message (item_id user_id recipient_user_id : string)
  : M (option Existing) :=
  existing_message <- step1 item_id user_id recipient_user_id ;;
  existing_message <- step2 item_id user_id recipient_user_id existing_message ;;
  existing_message <- step3 item_id user_id recipient_user_id existing_message ;;
  step4 item_id existing_message.

(** Lines 237-292: the failure of the chain, or the write. *)
Definition store_reply (rt : Runtime) (item_id recipient_user_id user_id
  user_email user_name message_text : string)
  (existing_message : option Existing) : M Reply :=
  match existing_message with
  | None => raise (ValueError not_found_message)
  | Some x =>
      let message_record :=
        message_record rt item_id recipient_user_id user_id user_email
          user_name message_text x in
      put_item message_record ;;;
      ret {| messageId := uuid4 rt; sentAt := utcnow rt |}
  end.

(** The body of the outer [try]. *)
Definition resolve_and_send (rt : Runtime) (event : Event) : M Reply :=
  claims <- get_claims event ;;
  user_id <- subscript "sub" (sub claims) ;;
  user_email <- subscript "email" (email claims) ;;
  let user_name := display_name claims user_email in
  fields <- validate user_id (body event) ;;
  let '(item_id, recipient_user_id, message_text) := fields in
  existing_message <- find_existing_message item_id user_id recipient_user_id ;;
  store_reply rt item_id recipient_user_id user_id user_email user_name
    message_text existing_message.

(** [send_reply_message_in_existing_conversation_thread]. *)
Definition send_reply_message_in_existing_conversation_thread
  (rt : Runtime) (event : Event) : M Reply :=
  try_except (resolve_and_send rt event) on_error.

End SendReply.

(* ===================================================================== *)
(** * SendNotification: the first contact *)
(* ===================================================================== *)

Module SendContact.
Import Store Validation.

(** The [details] of the dictionary returned on success. *)
Record Sent : Type := mkSent {
  messageId : string;
  details_itemId : string;
  details_recipientEmail : string
}.

(** Lines 173-192. *)
Definition message_record (rt : Runtime) (item_id : string) (item : Item)
  (user_id user_email user_name message_text : string) : Message :=
  {| id := uuid4 rt;
     itemId := item_id;
     itemTitle := title item;
     itemStatus := status item;
     recipientUserId := userId item;
     recipientEmail := userEmail item;
     recipientName := userName item;
     senderUserId := user_id;
     senderEmail := user_email;
     senderName := user_name;
     message := message_text;
     createdAt := utcnow rt;
     read := false |}.

(** The four [except] clauses. *)
Definition on_error (e : PyExn) : M Sent :=
  match e with
  | ValueError _ => raise (Exception ("Validation error: " ++ str e))
  | KeyError _ => raise (Exception "Unauthorized: Valid authentication required")
  | ClientError _ _ msg => raise (Exception ("AWS service error: " ++ msg))
  | _ => raise (Exception ("Internal server error: " ++ str e))
  end.

(** The inner [except ClientError as db_error]: the message is not stored and
    the handler goes on. *)
Definition on_db_error (e : PyExn) : M unit :=
  match e with
  | ClientError _ _ _ => ret tt
  | _ => raise e
  end.

(** The body of the outer [try]. *)
Definition contact (rt : Runtime) (event : Event) : M Sent :=
  let body := body event in
  claims <- get_claims event ;;
  user_id <- subscript "sub" (sub claims) ;;
  user_email <- subscript "email" (email claims) ;;
  let user_name := display_name claims user_email in
  check_required ["itemId"; "message"] body ;;;
  item_id <- subscript "itemId" (body_get "itemId" body) ;;
  message_text <- subscript "message" (body_get "message" body) ;;
  check_length message_text ;;;
  response <- get_item item_id ;;
  match response with
  | None => raise (ValueError "Item not found")
  | Some item =>
      let owner_email := userEmail item in
      (if String.eqb owner_email user_email
       then raise (ValueError "You cannot contact yourself") else ret tt) ;;;
      let message_record :=
        message_record rt item_id item user_id user_email user_name
          message_text in
      try_except (put_item message_record) on_db_error ;;;
      ret {| messageId := uuid4 rt;
             details_itemId := item_id;
             details_recipientEmail := owner_email |}
  end.

(** [send_contact.lambda_handler]. *)
Definition lambda_handler (rt : Runtime) (event : Event) : M Sent :=
  try_except (contact rt event) on_error.

End SendContact.

(* ===================================================================== *)
(** * Vocabulary of the statements *)
(* ===================================================================== *)

Module ThreadSpec.
Import GetMessages.

(** The messages of one conversation, in the order of the input. *)
Definition group_of (k : string) (msgs : list Message) : list Message :=
  filter (fun m => String.eqb (thread_id m) k) msgs.

(** A message sent to [user_id] and not read yet. *)
Definition is_unread_for (user_id : string) (m : Message) : bool :=
  String.eqb (recipientUserId m) user_id && negb (read m).

Definition count_unread (user_id : string) (l : list Message) : nat :=
  List.length (filter (is_unread_for user_id) l).

(** [t] is the greatest [createdAt] of [l]. *)
Definition latest (l : list Message) (t : string) : Prop :=
  Exists (fun m => createdAt m = t) l
  /\ Forall (fun m => PyStr.le (createdAt m) t) l.

(** The messages created at [time]. *)
Definition created_at (time : string) (m : Message) : bool :=
  String.eqb (createdAt m) time.

(** Invariant of the grouping loop on one entry of [threads], once the
    messages [done] have been handled. *)
Definition thread_inv (user_id : string) (done : list Message)
  (kt : string * Thread) : Prop :=
  threadId (snd kt) = fst kt
  /\ messages (snd kt) = group_of (fst kt) done
  /\ latest (messages (snd kt)) (lastMessageTime (snd kt))
  /\ unreadCount (snd kt) = count_unread user_id (messages (snd kt)).

(** Invariant of the grouping loop on [threads]. *)
Definition dict_inv (user_id : string) (done : list Message) (d : Threads)
  : Prop :=
  NoDup (map fst d)
  /\ Forall (thread_inv user_id done) d
  /\ (forall m, In m done -> In (thread_id m) (map fst d)).

End ThreadSpec.

Module Effects.
Import Store.

(** [w'] is [w] after the calls [ops], which only read. *)
Definition reads_from (w w' : World) (ops : list Call) : Prop :=
  messages_table w' = messages_table w
  /\ recipient_index w' = recipient_index w
  /\ items_table w' = items_table w
  /\ faults w' = faults w
  /\ calls w' = (calls w ++ ops)%list
  /\ forallb is_read ops = true.

(** [c] only reads, and what it returns satisfies [post]. *)
Definition reads {A : Type} (c : M A) (post : A -> Prop) : Prop :=
  forall w, exists ops,
    reads_from w (snd (c w)) ops
    /\ match fst (c w) with
       | inr a => post a
       | inl _ => True
       end.

(** [c] writes at most one row, by its last call, after reads only:
    - when [c] returns, the row has been appended to the table;
    - when [c] raises, the table is as it was: either no [PutItem] was
      called, or it was the last call and the service failed it. *)
Definition writes_once_at_end {A : Type} (valid : Message -> Prop) (c : M A)
  : Prop :=
  forall w,
    let w' := snd (c w) in
    recipient_index w' = recipient_index w
    /\ items_table w' = items_table w
    /\ faults w' = faults w
    /\ exists ops,
         forallb is_read ops = true
         /\ match fst (c w) with
            | inr _ =>
                exists row, valid row
                  /\ calls w' = (calls w ++ ops ++ [PutItem row])%list
                  /\ messages_table w' = (messages_table w ++ [row])%list
            | inl _ =>
                messages_table w' = messages_table w
                /\ (calls w' = (calls w ++ ops)%list
                    \/ exists row, valid row
                         /\ calls w' = (calls w ++ ops ++ [PutItem row])%list
                         /\ faults w (List.length (calls w ++ ops)) <> None)
            end.

(** No service call fails. *)
Definition no_faults (w : World) : Prop := forall n, faults w n = None.

(** What the validation of [send_reply] has established of the row it
    writes. *)
Definition validated (rt : Runtime) (row : Message) : Prop :=
  itemId row <> EmptyString
  /\ recipientUserId row <> EmptyString
  /\ message row <> EmptyString
  /\ String.length (message row) <= 1000
  /\ senderUserId row <> recipientUserId row
  /\ id row = uuid4 rt
  /\ createdAt row = utcnow rt
  /\ read row = false.

(** The first three steps in a world without faults: the two queries, then
    the scan of the first [scan_limit] rows. *)
Definition chain_result (item_id user_id recipient_user_id : string)
  (w : World) : option Message :=
  match find (SendReply.match_received item_id recipient_user_id)
          (index_rows user_id w) with
  | Some m => Some m
  | None =>
      match find (SendReply.match_sent item_id user_id)
              (index_rows recipient_user_id w) with
      | Some m => Some m
      | None => find (SendReply.match_pair item_id user_id recipient_user_id)
                  (firstn SendReply.scan_limit (messages_table w))
      end
  end.

End Effects.

(* ===================================================================== *)
(** * Vocabulary of the further properties *)
(* ===================================================================== *)

Module Conversation.
Import GetMessages.

(** The fields a thread takes from the message that created it. *)
Definition header_of (user_id : string) (m0 : Message) (t : Thread) : Prop :=
  t_itemId t = itemId m0
  /\ t_itemTitle t = itemTitle m0
  /\ t_itemStatus t = itemStatus m0
  /\ otherUserId t
     = (if String.eqb (senderUserId m0) user_id
        then recipientUserId m0 else senderUserId m0)
  /\ otherUserName t
     = (if String.eqb (senderUserId m0) user_id
        then recipientName m0 else senderName m0)
  /\ otherUserEmail t
     = (if String.eqb (senderUserId m0) user_id
        then recipientEmail m0 else senderEmail m0).

(** The thread under key [k] was created by the first message of its
    conversation. *)
Definition created_by_first (user_id : string) (msgs : list Message)
  (k : string) (t : Thread) : Prop :=
  exists m0 rest,
    ThreadSpec.group_of k msgs = m0 :: rest /\ header_of user_id m0 t.

(** Invariant of the grouping loop on the headers. *)
Definition head_inv (user_id : string) (done : list Message)
  (kt : string * Thread) : Prop :=
  created_by_first user_id done (fst kt) (snd kt).

(** The string has no [#]. *)
Fixpoint no_hash (s : string) : bool :=
  match s with
  | EmptyString => true
  | String c s' => negb (Ascii.eqb c "#"%char) && no_hash s'
  end.

(** The string has no [@]. *)
Fixpoint no_at (s : string) : bool :=
  match s with
  | EmptyString => true
  | String c s' => negb (Ascii.eqb c "@"%char) && no_at s'
  end.

(** What a thread shows to both participants alike: everything but the
    other-user fields and the unread count. *)
Definition shared_view (t : Thread)
  : string * string * string * string * list Message * string :=
  (threadId t, t_itemId t, t_itemTitle t, t_itemStatus t, messages t,
   lastMessageTime t).

(** The entries of two [threads] dictionaries show the same under the same
    keys, in the same order. *)
Definition same_views (d d' : Threads) : Prop :=
  map (fun kt => (fst kt, shared_view (snd kt))) d
  = map (fun kt => (fst kt, shared_view (snd kt))) d'.

(** [user_id] wrote or received the message. *)
Definition involves (user_id : string) (m : Message) : Prop :=
  senderUserId m = user_id \/ recipientUserId m = user_id.

End Conversation.

Module Outcome.
Import Store Validation.

(** The field is in the body and is not empty. *)
Definition present (v : option string) : bool :=
  match v with
  | Some s => truthy s
  | None => false
  end.

(** The first of [fields] that the body lacks. *)
Definition first_missing (fields : list string) (b : Body) : option string :=
  find (fun f => negb (present (body_get f b))) fields.

(** The event carries no usable identity: the claims, the [sub] claim or the
    [email] claim is missing. *)
Definition identity_missing (event : Event) : Prop :=
  match claims event with
  | None => True
  | Some c => sub c = None \/ email c = None
  end.

Definition unauthorized : PyExn :=
  Exception "Unauthorized: Valid authentication required".




(** What the checks of the first-contact handler have established of the row
    it writes. *)
Definition contact_row_ok (rt : Runtime) (row : Message) : Prop :=
  itemId row <> EmptyString
  /\ message row <> EmptyString
  /\ String.length (message row) <= 1000
  /\ recipientEmail row <> senderEmail row
  /\ id row = uuid4 rt
  /\ createdAt row = utcnow rt
  /\ read row = false.

End Outcome.

(* ===================================================================== *)
(** * Requests and stores used as examples *)
(* ===================================================================== *)

(** The request of [user_id] used in the statements below. *)
Definition request (user_id user_email : string) (nm : option string)
  (item_id recipient_user_id message_text : string) : Event :=
  mkEvent (Some (mkClaims (Some user_id) (Some user_email) nm))
    (mkBody (Some item_id) (Some recipient_user_id) (Some message_text)).

Definition sample_runtime : Runtime :=
  mkRuntime "7f3c2a1e-0000-4000-8000-000000000001" "2026-02-01T09:00:00Z".

Definition sample_message (msg_id item_id sender recipient time : string)
  : Message :=
  mkMessage msg_id item_id "Blue backpack" "lost"
    recipient (recipient ++ "@example.com") recipient
    sender (sender ++ "@example.com") sender
    "Is it still there?" time false.

(** Nothing stored, nothing indexed, no item, no fault. *)
Definition empty_world : Store.World :=
  Store.mkWorld [] [] [] (fun _ => None) [].

(** Ten rows of another conversation, then the first contact of bob to
    alice about item I1; the index shows nothing yet. *)
Definition crowded_world : Store.World :=
  Store.mkWorld
    (repeat (sample_message "m0" "I9" "carol" "dave" "2026-01-20T08:00:00Z") 10
     ++ [sample_message "m1" "I1" "bob" "alice" "2026-01-31T18:00:00Z"])%list
    [] [] (fun _ => None) [].

(** The first contact of bob to alice about item I1 is the only row; the
    index shows nothing yet. *)
Definition fresh_thread_world : Store.World :=
  Store.mkWorld [sample_message "m1" "I1" "bob" "alice" "2026-01-31T18:00:00Z"]
    [] [] (fun _ => None) [].

(** An item whose owner has changed e-mail address since posting it. *)
Definition own_item_world : Store.World :=
  Store.mkWorld [] []
    [mkItem "I1" "Blue backpack" "lost" "u-alice" "alice@old.example.com"
       "Alice"]
    (fun _ => None) [].

(* ===================================================================== *)
(** * Properties of the string order and of the stable sort *)
(* ===================================================================== *)

Unset Implicit Arguments.

Module PyStrFacts.
Import PyStr.

Lemma ascii_compare_refl (c : ascii) : Ascii.compare c c = Eq.
Proof. unfold Ascii.compare. apply N.compare_refl. Qed.

Lemma compare_refl (s : string) : String.compare s s = Eq.
Proof.
  induction s as [|c s IH]; simpl; [reflexivity|].
  now rewrite ascii_compare_refl.
Qed.

Lemma le_refl (s : string) : le s s.
Proof. unfold le, String.leb. now rewrite compare_refl. Qed.

Lemma le_total (a b : string) : le a b \/ le b a.
Proof. apply String.leb_total. Qed.

Lemma le_antisym (a b : string) : le a b -> le b a -> a = b.
Proof. apply String.leb_antisym. Qed.

Lemma leb_false_le (a b : string) : String.leb a b = false -> le b a.
Proof.
  intros H. destruct (le_total a b) as [Hab|Hba]; [|exact Hba].
  unfold le in Hab. congruence.
Qed.

Lemma le_trans (a b c : string) : le a b -> le b c -> le a c.
Proof.
  unfold le, String.leb. revert b c.
  induction a as [|x a IH]; intros [|y b] [|z c]; simpl; try easy.
  unfold Ascii.compare.
  destruct (N.compare_spec (N_of_ascii x) (N_of_ascii y)) as [Exy|Lxy|Gxy];
    try easy;
    destruct (N.compare_spec (N_of_ascii y) (N_of_ascii z)) as [Eyz|Lyz|Gyz];
    try easy;
    destruct (N.compare_spec (N_of_ascii x) (N_of_ascii z)) as [Exz|Lxz|Gxz];
    try easy; try lia.
  apply IH.
Qed.

Lemma ltb_false_le (a b : string) : String.ltb a b = false -> le b a.
Proof.
  unfold le, String.ltb, String.leb. rewrite (String.compare_antisym b a).
  destruct (String.compare a b); simpl; easy.
Qed.

Lemma ltb_true_le (a b : string) : String.ltb a b = true -> le a b.
Proof.
  unfold le, String.ltb, String.leb.
  destruct (String.compare a b); simpl; easy.
Qed.

End PyStrFacts.

Module PyListFacts.
Import PyList.

Section StableSortFacts.
Variable A : Type.
Variable before : A -> A -> bool.
Hypothesis before_total : forall x y, before x y = false -> before y x = true.

Let R (x y : A) : Prop := before x y = true.

Lemma insert_perm (x : A) (l : list A) :
  Permutation (insert before x l) (x :: l).
Proof.
  induction l as [|y l IH]; simpl; [reflexivity|].
  destruct (before x y); [reflexivity|].
  rewrite IH. apply perm_swap.
Qed.

Lemma stable_sort_perm (l : list A) : Permutation (stable_sort before l) l.
Proof.
  induction l as [|x l IH]; simpl; [reflexivity|].
  rewrite insert_perm. now constructor.
Qed.

Lemma insert_hdrel (a x : A) (l : list A) :
  R a x -> HdRel R a l -> HdRel R a (insert before x l).
Proof.
  intros Hax Hal. destruct l as [|y l]; simpl.
  - now constructor.
  - destruct (before x y); constructor; [assumption|].
    now inversion Hal.
Qed.

Lemma insert_sorted (x : A) (l : list A) :
  Sorted R l -> Sorted R (insert before x l).
Proof.
  induction 1 as [|y l Hl IH Hy]; simpl.
  - repeat constructor.
  - destruct (before x y) eqn:E.
    + constructor; [now constructor|]. now constructor.
    + constructor; [exact IH|].
      apply insert_hdrel; [|exact Hy]. now apply before_total.
Qed.

Lemma stable_sort_sorted (l : list A) : Sorted R (stable_sort before l).
Proof.
  induction l as [|x l IH]; simpl; [constructor|].
  now apply insert_sorted.
Qed.

(** Stability: the elements selected by [p], which the order does not tell
    apart, stay in the order they had. *)
Lemma filter_insert (p : A -> bool) (x : A) (l : list A) :
  (forall y, p x = true -> p y = true -> before x y = true) ->
  filter p (insert before x l) = filter p (x :: l).
Proof.
  intros Hp. induction l as [|y l IH]; simpl; [reflexivity|].
  destruct (before x y) eqn:E; simpl; [reflexivity|].
  simpl in IH. rewrite IH.
  destruct (p x) eqn:Px; [|reflexivity].
  destruct (p y) eqn:Py; [|reflexivity].
  rewrite (Hp y eq_refl Py) in E. discriminate.
Qed.

Lemma filter_stable_sort (p : A -> bool) (l : list A) :
  (forall x y, p x = true -> p y = true -> before x y = true) ->
  filter p (stable_sort before l) = filter p l.
Proof.
  intros Hp. induction l as [|x l IH]; simpl; [reflexivity|].
  rewrite filter_insert by (intros y; apply Hp).
  simpl. now rewrite IH.
Qed.

Lemma length_filter_insert (p : A -> bool) (x : A) (l : list A) :
  List.length (filter p (insert before x l)) = List.length (filter p (x :: l)).
Proof.
  induction l as [|y l IH]; simpl; [reflexivity|].
  destruct (before x y); simpl; [reflexivity|].
  simpl in IH. destruct (p y); simpl; rewrite IH; destruct (p x); reflexivity.
Qed.

Lemma length_filter_stable_sort (p : A -> bool) (l : list A) :
  List.length (filter p (stable_sort before l)) = List.length (filter p l).
Proof.
  induction l as [|x l IH]; simpl; [reflexivity|].
  rewrite length_filter_insert. simpl. destruct (p x); simpl; now rewrite IH.
Qed.

End StableSortFacts.

Lemma sort_by_key_sorted (A : Type) (key : A -> string) (l : list A) :
  StronglySorted (fun x y => PyStr.le (key x) (key y)) (sort_by_key key l).
Proof.
  apply Sorted_StronglySorted.
  - intros x y z. apply PyStrFacts.le_trans.
  - unfold sort_by_key.
    apply (stable_sort_sorted A (fun x y => String.leb (key x) (key y))).
    intros x y. apply PyStrFacts.leb_false_le.
Qed.

Lemma sort_by_key_reverse_sorted (A : Type) (key : A -> string) (l : list A) :
  Sorted (fun x y => PyStr.le (key y) (key x)) (sort_by_key_reverse key l).
Proof.
  unfold sort_by_key_reverse.
  apply (stable_sort_sorted A (fun x y => String.leb (key y) (key x))).
  intros x y. apply PyStrFacts.leb_false_le.
Qed.

Lemma sort_by_key_stable (A : Type) (key : A -> string) (k : string)
  (l : list A) :
  filter (fun x => String.eqb (key x) k) (sort_by_key key l)
  = filter (fun x => String.eqb (key x) k) l.
Proof.
  unfold sort_by_key. apply filter_stable_sort.
  intros x y Hx Hy.
  apply String.eqb_eq in Hx. apply String.eqb_eq in Hy.
  rewrite Hx, Hy. apply PyStrFacts.le_refl.
Qed.

End PyListFacts.

(* ===================================================================== *)
(** * The aggregator *)
(* ===================================================================== *)

Module GetMessagesFacts.
Import GetMessages ThreadSpec.

Lemma dict_get_None (k : string) (d : Threads) :
  dict_get k d = None -> ~ In k (map fst d).
Proof.
  induction d as [|[k' t'] d IH]; simpl; [tauto|].
  destruct (String.eqb_spec k k') as [->|Hne]; [discriminate|].
  intros H [Heq|Hin]; [congruence|]. now apply IH.
Qed.

Lemma dict_set_new (k : string) (t : Thread) (d : Threads) :
  dict_get k d = None -> dict_set k t d = (d ++ [(k, t)])%list.
Proof.
  induction d as [|[k' t'] d IH]; simpl; [reflexivity|].
  destruct (String.eqb k k'); [discriminate|].
  intros H. now rewrite IH.
Qed.

Lemma dict_set_old (k : string) (t0 : Thread) (d : Threads) :
  dict_get k d = Some t0 ->
  exists d1 d2, d = (d1 ++ (k, t0) :: d2)%list
    /\ forall t, dict_set k t d = (d1 ++ (k, t) :: d2)%list.
Proof.
  induction d as [|[k' t'] d IH]; simpl; [discriminate|].
  destruct (String.eqb_spec k k') as [->|Hne].
  - intros [= ->]. exists [], d. split; [reflexivity|]. reflexivity.
  - intros H. destruct (IH H) as (d1 & d2 & -> & Hset).
    exists ((k', t') :: d1), d2. split; [reflexivity|].
    intros t. simpl. now rewrite Hset.
Qed.

Lemma group_of_snoc (k : string) (done : list Message) (m : Message) :
  group_of k (done ++ [m])
  = (group_of k done ++ (if String.eqb (thread_id m) k then [m] else []))%list.
Proof. unfold group_of. rewrite filter_app. reflexivity. Qed.

Lemma count_unread_snoc (user_id : string) (l : list Message) (m : Message) :
  count_unread user_id (l ++ [m])
  = if is_unread_for user_id m then S (count_unread user_id l)
    else count_unread user_id l.
Proof.
  unfold count_unread. rewrite filter_app, length_app. simpl.
  destruct (is_unread_for user_id m); simpl; lia.
Qed.

Lemma latest_first (m : Message) : latest [m] (createdAt m).
Proof.
  split.
  - now constructor.
  - constructor; [apply PyStrFacts.le_refl|constructor].
Qed.

Lemma latest_snoc (l : list Message) (t : string) (m : Message) :
  latest l t ->
  latest (l ++ [m]) (if String.ltb t (createdAt m) then createdAt m else t).
Proof.
  intros [Hex Hall]. destruct (String.ltb t (createdAt m)) eqn:E; split.
  - apply Exists_app. right. now constructor.
  - apply Forall_app. split.
    + eapply Forall_impl; [|exact Hall]. intros a Ha.
      eapply PyStrFacts.le_trans; [exact Ha|].
      now apply PyStrFacts.ltb_true_le.
    + constructor; [apply PyStrFacts.le_refl|constructor].
  - apply Exists_app. now left.
  - apply Forall_app. split; [exact Hall|].
    constructor; [now apply PyStrFacts.ltb_false_le|constructor].
Qed.

Lemma thread_inv_other (user_id : string) (done : list Message) (m : Message)
  (kt : string * Thread) :
  fst kt <> thread_id m ->
  thread_inv user_id done kt -> thread_inv user_id (done ++ [m]) kt.
Proof.
  intros Hne (Hid & Hmsgs & Hlast & Hunread).
  repeat split; try assumption.
  - rewrite group_of_snoc.
    destruct (String.eqb_spec (thread_id m) (fst kt)) as [E|_]; [congruence|].
    now rewrite app_nil_r.
  - apply Hlast.
  - apply Hlast.
Qed.

Lemma thread_inv_add (user_id : string) (done : list Message) (m : Message)
  (t : Thread) :
  thread_inv user_id done (thread_id m, t) ->
  thread_inv user_id (done ++ [m]) (thread_id m, add_message user_id m t).
Proof.
  unfold thread_inv. simpl. intros (Hid & Hmsgs & Hlast & Hunread).
  split; [exact Hid|]. split; [|split].
  - rewrite group_of_snoc, String.eqb_refl. now rewrite <- Hmsgs.
  - now apply latest_snoc.
  - rewrite count_unread_snoc. unfold is_unread_for. now rewrite Hunread.
Qed.

Lemma thread_inv_new (user_id : string) (done : list Message) (m : Message) :
  group_of (thread_id m) done = [] ->
  thread_inv user_id (done ++ [m])
    (thread_id m, add_message user_id m (new_thread user_id m)).
Proof.
  unfold thread_inv. simpl. intros Hnil.
  split; [reflexivity|]. split; [|split].
  - rewrite group_of_snoc, String.eqb_refl, Hnil. reflexivity.
  - destruct (String.ltb (createdAt m) (createdAt m)); apply latest_first.
  - unfold count_unread, is_unread_for. simpl.
    destruct (String.eqb (recipientUserId m) user_id && negb (read m));
      reflexivity.
Qed.

Lemma group_of_absent (k : string) (done : list Message) (keys : list string) :
  (forall m, In m done -> In (thread_id m) keys) ->
  ~ In k keys -> group_of k done = [].
Proof.
  intros Hkeys Hk. unfold group_of.
  induction done as [|m done IH]; simpl; [reflexivity|].
  destruct (String.eqb_spec (thread_id m) k) as [E|_].
  - exfalso. apply Hk. rewrite <- E. apply Hkeys. now left.
  - apply IH. intros m' Hm'. apply Hkeys. now right.
Qed.

Lemma group_step_inv (user_id : string) (done : list Message) (m : Message)
  (d : Threads) :
  dict_inv user_id done d ->
  dict_inv user_id (done ++ [m]) (group_step user_id d m).
Proof.
  intros (Hnodup & Hall & Hkeys). unfold group_step.
  destruct (dict_get (thread_id m) d) as [t0|] eqn:Hget.
  - destruct (dict_set_old _ _ _ Hget) as (d1 & d2 & -> & Hset).
    rewrite Hset. clear Hset Hget.
    assert (Hfst : forall t, map fst (d1 ++ (thread_id m, t) :: d2)
                             = (map fst d1 ++ thread_id m :: map fst d2)%list)
      by (intros t; now rewrite map_app).
    rewrite Hfst in Hnodup, Hkeys.
    pose proof (NoDup_remove_2 _ _ _ Hnodup) as Hout.
    apply Forall_app in Hall. destruct Hall as [H1 H2].
    inversion H2 as [|? ? H0 H2']; subst.
    split; [now rewrite Hfst|]. split.
    + apply Forall_app. split; [|constructor].
      * apply Forall_forall. intros kt Hin.
        apply thread_inv_other; [|now apply (proj1 (Forall_forall _ _) H1)].
        intros E. apply Hout. apply in_or_app. left.
        rewrite <- E. now apply in_map.
      * now apply thread_inv_add.
      * apply Forall_forall. intros kt Hin.
        apply thread_inv_other; [|now apply (proj1 (Forall_forall _ _) H2')].
        intros E. apply Hout. apply in_or_app. right.
        rewrite <- E. now apply in_map.
    + rewrite Hfst. intros m' Hm'. apply in_app_or in Hm'.
      destruct Hm' as [Hm'|[<-|[]]]; [now apply Hkeys|].
      apply in_or_app. right. now left.
  - pose proof (dict_get_None _ _ Hget) as Hout.
    rewrite (dict_set_new _ _ _ Hget).
    assert (Hfst : map fst (d ++ [(thread_id m,
                     add_message user_id m (new_thread user_id m))])
                   = (map fst d ++ [thread_id m])%list)
      by now rewrite map_app.
    split; [|split].
    + rewrite Hfst. apply NoDup_rev in Hnodup.
      rewrite <- (rev_involutive (map fst d ++ [thread_id m])).
      apply NoDup_rev. rewrite rev_app_distr. simpl.
      constructor; [|exact Hnodup].
      intros Hin. apply Hout. now apply in_rev.
    + apply Forall_app. split; [|constructor; [|constructor]].
      * apply Forall_forall. intros kt Hin.
        apply thread_inv_other; [|now apply (proj1 (Forall_forall _ _) Hall)].
        intros E. apply Hout. rewrite <- E. now apply in_map.
      * apply thread_inv_new. now apply group_of_absent with (map fst d).
    + rewrite Hfst. intros m' Hm'. apply in_or_app. apply in_app_or in Hm'.
      destruct Hm' as [Hm'|[<-|[]]]; [left; now apply Hkeys|].
      right. now left.
Qed.

Lemma fold_group_step_inv (user_id : string) (rest done : list Message)
  (d : Threads) :
  dict_inv user_id done d ->
  dict_inv user_id (done ++ rest) (fold_left (group_step user_id) rest d).
Proof.
  revert done d. induction rest as [|m rest IH]; intros done d Hinv; simpl.
  - now rewrite app_nil_r.
  - replace (done ++ m :: rest)%list with ((done ++ [m]) ++ rest)%list
      by (rewrite <- app_assoc; reflexivity).
    apply IH. now apply group_step_inv.
Qed.

Lemma group_messages_inv (user_id : string) (msgs : list Message) :
  dict_inv user_id msgs (group_messages user_id msgs).
Proof.
  apply (fold_group_step_inv user_id msgs []).
  split; [constructor|]. split; [constructor|]. intros m [].
Qed.

End GetMessagesFacts.

Module AggregateFacts.
Import GetMessages ThreadSpec GetMessagesFacts.

Lemma thread_key_swap (item_id a b : string) :
  thread_key item_id a b = thread_key item_id b a.
Proof.
  unfold thread_key, PyList.sorted, PyList.sort_by_key. simpl.
  destruct (String.leb a b) eqn:Eab, (String.leb b a) eqn:Eba; simpl;
    try reflexivity.
  - now rewrite (String.leb_antisym _ _ Eab Eba).
  - destruct (String.leb_total a b); congruence.
Qed.

(** Every thread of the response is an entry of the grouping, with its
    messages sorted. *)
Lemma aggregate_thread (user_id : string) (msgs : list Message) (t : Thread) :
  In t (threads (aggregate user_id msgs)) ->
  exists t0, t = sort_thread t0 /\ thread_inv user_id msgs (threadId t, t0).
Proof.
  unfold aggregate. simpl. intros Hin.
  apply (Permutation_in _ (PyListFacts.stable_sort_perm _ _ _)) in Hin.
  apply in_map_iff in Hin. destruct Hin as (t0 & <- & Hin).
  apply in_map_iff in Hin. destruct Hin as ([k t1] & Heq & Hin).
  simpl in Heq. subst t1. exists t0. split; [reflexivity|].
  destruct (group_messages_inv user_id msgs) as (_ & Hall & _).
  pose proof (proj1 (Forall_forall _ _) Hall _ Hin) as Hinv.
  destruct Hinv as (Hid & Hrest). simpl in Hid, Hrest.
  unfold thread_inv. simpl. rewrite Hid. split; [reflexivity|exact Hrest].
Qed.

Lemma latest_perm (l l' : list Message) (t : string) :
  Permutation l l' -> latest l t -> latest l' t.
Proof.
  intros Hp [Hex Hall]. split.
  - apply Exists_exists in Hex. destruct Hex as (m & Hin & Hm).
    apply Exists_exists. exists m. split; [|exact Hm].
    now apply (Permutation_in _ Hp).
  - apply Forall_forall. intros m Hin.
    apply (proj1 (Forall_forall _ _) Hall).
    apply (Permutation_in _ (Permutation_sym Hp)). exact Hin.
Qed.

Lemma strongly_sorted_last (A : Type) (R : A -> A -> Prop) (l : list A)
  (x : A) :
  StronglySorted R (l ++ [x]) -> Forall (fun a => R a x) l.
Proof.
  induction l as [|a l IH]; simpl; intros H; [constructor|].
  inversion H as [|? ? Hss Hall]; subst. constructor.
  - apply Forall_app in Hall. destruct Hall as [_ Hx]. now inversion Hx.
  - now apply IH.
Qed.

(** In a sorted thread the greatest [createdAt] is that of the last
    message. *)
Lemma latest_is_last (l : list Message) (t : string) :
  StronglySorted (fun a b => PyStr.le (createdAt a) (createdAt b)) l ->
  latest l t ->
  exists front m, l = (front ++ [m])%list /\ createdAt m = t.
Proof.
  intros Hss [Hex Hall].
  destruct (exists_last (l := l)) as (front & m & ->).
  { intros ->. inversion Hex. }
  exists front, m. split; [reflexivity|].
  apply strongly_sorted_last in Hss.
  apply Forall_app in Hall. destruct Hall as [_ Hm].
  inversion Hm as [|? ? Hmt _]; subst.
  apply Exists_exists in Hex. destruct Hex as (m' & Hin & Hm').
  apply in_app_or in Hin. destruct Hin as [Hin|[<-|[]]]; [|exact Hm'].
  apply PyStrFacts.le_antisym; [exact Hmt|].
  rewrite <- Hm'. now apply (proj1 (Forall_forall _ _) Hss).
Qed.

End AggregateFacts.

(* ===================================================================== *)
(** * The properties of the aggregator *)
(* ===================================================================== *)

(** C5: the thread key is symmetric in the participants: a message from A to
    B about item I and a message from B to A about item I have the same
    [threadId]. *)
Theorem thread_id_symmetric :
  forall m m' : Message,
    itemId m = itemId m' ->
    senderUserId m = recipientUserId m' ->
    recipientUserId m = senderUserId m' ->
    GetMessages.thread_id m = GetMessages.thread_id m'.
Proof.
  intros m m' Hi Hs Hr. unfold GetMessages.thread_id.
  rewrite Hi, Hs, Hr. apply AggregateFacts.thread_key_swap.
Qed.

Lemma thread_id_symmetric_witness :
  GetMessages.thread_id
    (mkMessage "m1" "I1" "Keys" "lost" "bob" "bob@x.org" "Bob"
       "alice" "alice@x.org" "Alice" "hello" "2026-01-22T10:30:00Z" false)
  = GetMessages.thread_id
    (mkMessage "m2" "I1" "Keys" "lost" "alice" "alice@x.org" "Alice"
       "bob" "bob@x.org" "Bob" "hi" "2026-01-22T10:31:00Z" false).
Proof. apply thread_id_symmetric; reflexivity. Defined.

(** C6: the threads of the response are sorted by [lastMessageTime],
    descending: each thread is at least as recent as the next one. *)
Theorem threads_sorted_by_last_message_time :
  forall (user_id : string) (msgs : list Message),
    Sorted
      (fun t1 t2 => PyStr.le (GetMessages.lastMessageTime t2)
                      (GetMessages.lastMessageTime t1))
      (GetMessages.threads (GetMessages.aggregate user_id msgs)).
Proof.
  intros user_id msgs. unfold GetMessages.aggregate. simpl.
  apply PyListFacts.sort_by_key_reverse_sorted.
Qed.

(** C7: in every thread of the response the messages are those of the
    conversation, sorted by [createdAt] ascending, messages created at the
    same time keeping the order of the input; [lastMessageTime] is the
    greatest [createdAt] of the thread, which is the [createdAt] of its last
    message. *)
Theorem thread_messages_sorted_and_last_time :
  forall (user_id : string) (msgs : list Message),
    Forall
      (fun t =>
         let group := ThreadSpec.group_of (GetMessages.threadId t) msgs in
         Permutation (GetMessages.messages t) group
         /\ StronglySorted (fun a b => PyStr.le (createdAt a) (createdAt b))
              (GetMessages.messages t)
         /\ (forall time,
               filter (ThreadSpec.created_at time) (GetMessages.messages t)
               = filter (ThreadSpec.created_at time) group)
         /\ ThreadSpec.latest (GetMessages.messages t)
              (GetMessages.lastMessageTime t)
         /\ exists front m,
              GetMessages.messages t = (front ++ [m])%list
              /\ createdAt m = GetMessages.lastMessageTime t)
      (GetMessages.threads (GetMessages.aggregate user_id msgs)).
Proof.
  intros user_id msgs. apply Forall_forall. intros t Hin.
  destruct (AggregateFacts.aggregate_thread _ _ _ Hin)
    as (t0 & -> & _ & Hmsgs & Hlast & _).
  simpl in *. rewrite Hmsgs in *.
  set (group := ThreadSpec.group_of (GetMessages.threadId t0) msgs) in *.
  assert (Hperm : Permutation (PyList.sort_by_key createdAt group) group)
    by apply PyListFacts.stable_sort_perm.
  assert (Hsorted : StronglySorted
                      (fun a b => PyStr.le (createdAt a) (createdAt b))
                      (PyList.sort_by_key createdAt group))
    by apply PyListFacts.sort_by_key_sorted.
  assert (Hlatest : ThreadSpec.latest (PyList.sort_by_key createdAt group)
                      (GetMessages.lastMessageTime t0))
    by (apply AggregateFacts.latest_perm with group;
        [now apply Permutation_sym|exact Hlast]).
  repeat split; try assumption.
  - intros time. apply PyListFacts.sort_by_key_stable.
  - apply Hlatest.
  - apply Hlatest.
  - now apply AggregateFacts.latest_is_last.
Qed.

(** C8: the [unreadCount] of a thread is the number of its messages sent to
    the requesting user and not read; the [unreadCount] of the response is
    the sum of those of the threads; [totalMessages] is the number of input
    messages. *)
Theorem unread_counts_and_totals :
  forall (user_id : string) (msgs : list Message),
    let response := GetMessages.aggregate user_id msgs in
    Forall
      (fun t => GetMessages.unreadCount t
                = ThreadSpec.count_unread user_id (GetMessages.messages t))
      (GetMessages.threads response)
    /\ GetMessages.total_unreadCount response
       = PyList.sum (map GetMessages.unreadCount (GetMessages.threads response))
    /\ GetMessages.totalMessages response = List.length msgs.
Proof.
  intros user_id msgs response. split; [|split; reflexivity].
  apply Forall_forall. intros t Hin.
  destruct (AggregateFacts.aggregate_thread _ _ _ Hin)
    as (t0 & -> & _ & _ & _ & Hunread).
  simpl in *. rewrite Hunread. unfold ThreadSpec.count_unread.
  symmetry. apply PyListFacts.length_filter_stable_sort.
Qed.

(* ===================================================================== *)
(** * Effects of the handlers on the tables *)
(* ===================================================================== *)

Module EffectsFacts.
Import Store Effects Validation.

Lemma reads_from_refl (w : World) : reads_from w w [].
Proof.
  unfold reads_from. rewrite app_nil_r. repeat split; reflexivity.
Qed.

Lemma reads_from_trans (w1 w2 w3 : World) (ops1 ops2 : list Call) :
  reads_from w1 w2 ops1 -> reads_from w2 w3 ops2 ->
  reads_from w1 w3 (ops1 ++ ops2).
Proof.
  intros (Hm1 & Hr1 & Hi1 & Hf1 & Hc1 & Ho1) (Hm2 & Hr2 & Hi2 & Hf2 & Hc2 & Ho2).
  unfold reads_from. rewrite forallb_app, Ho1, Ho2, app_assoc, <- Hc1.
  repeat split; congruence.
Qed.

Lemma reads_ret (A : Type) (a : A) (post : A -> Prop) :
  post a -> reads (ret a) post.
Proof.
  intros Ha w. exists []. split; [apply reads_from_refl|exact Ha].
Qed.

Lemma reads_raise (A : Type) (e : PyExn) (post : A -> Prop) :
  reads (raise e) post.
Proof.
  intros w. exists []. split; [apply reads_from_refl|exact I].
Qed.

Lemma reads_bind (A B : Type) (c : M A) (k : A -> M B) (P : A -> Prop)
  (Q : B -> Prop) :
  reads c P -> (forall a, P a -> reads (k a) Q) -> reads (bind c k) Q.
Proof.
  intros Hc Hk w. destruct (Hc w) as (ops1 & Hw1 & Hp). unfold bind.
  destruct (c w) as [[e|a] w1]; simpl in *.
  - exists ops1. split; [exact Hw1|exact I].
  - destruct (Hk a Hp w1) as (ops2 & Hw2 & Hq).
    exists (ops1 ++ ops2)%list. split; [|exact Hq].
    now apply reads_from_trans with w1.
Qed.

Lemma reads_try_except (A : Type) (c : M A) (h : PyExn -> M A)
  (P : A -> Prop) :
  reads c P -> (forall e, reads (h e) P) -> reads (try_except c h) P.
Proof.
  intros Hc Hh w. destruct (Hc w) as (ops1 & Hw1 & Hp). unfold try_except.
  destruct (c w) as [[e|a] w1]; simpl in *.
  - destruct (Hh e w1) as (ops2 & Hw2 & Hq).
    exists (ops1 ++ ops2)%list. split; [|exact Hq].
    now apply reads_from_trans with w1.
  - exists ops1. split; [exact Hw1|exact Hp].
Qed.

Lemma reads_weaken (A : Type) (c : M A) (P Q : A -> Prop) :
  (forall a, P a -> Q a) -> reads c P -> reads c Q.
Proof.
  intros Hpq Hc w. destruct (Hc w) as (ops & Hw & Hp). exists ops.
  split; [exact Hw|]. destruct (fst (c w)); [exact I|now apply Hpq].
Qed.

Lemma reads_service (A : Type) (c : Call) (answer : World -> A)
  (P : A -> Prop) :
  is_read c = true -> (forall w, P (answer w)) ->
  reads (service c answer (fun w => w)) P.
Proof.
  intros Hread Hp w. exists [c]. unfold service.
  destruct (faults w (List.length (calls w))) as [[code msg]|]; simpl;
    (split; [|auto]); unfold reads_from; simpl; rewrite Hread;
    repeat split; reflexivity.
Qed.

Lemma reads_query (uid : string) (forward : bool) :
  reads (query_recipient_index uid forward) (fun _ => True).
Proof. apply reads_service; [reflexivity|auto]. Qed.

Lemma reads_scan (keep : Message -> bool) (limit : option nat) :
  reads (scan keep limit) (fun _ => True).
Proof. apply reads_service; [reflexivity|auto]. Qed.

Lemma reads_get_item (key : string) :
  reads (get_item key) (fun _ => True).
Proof. apply reads_service; [reflexivity|auto]. Qed.

Lemma reads_get_claims (event : Event) :
  reads (get_claims event) (fun c => claims event = Some c).
Proof.
  unfold get_claims. destruct (claims event).
  - now apply reads_ret.
  - apply reads_raise.
Qed.

Lemma reads_subscript (key : string) (v : option string) :
  reads (subscript key v) (fun s => v = Some s).
Proof.
  unfold subscript. destruct v; [now apply reads_ret|apply reads_raise].
Qed.

Lemma reads_load_global (globals : list string) (name : string) :
  reads (load_global globals name) (fun _ => True).
Proof.
  unfold load_global. destruct (existsb _ _);
    [now apply reads_ret|apply reads_raise].
Qed.

Lemma reads_check_required (fields : list string) (b : Body) :
  reads (check_required fields b)
    (fun _ => forall f, In f fields ->
                exists v, body_get f b = Some v /\ v <> EmptyString).
Proof.
  induction fields as [|f fields IH]; simpl.
  - apply reads_ret. intros f [].
  - destruct (body_get f b) as [v|] eqn:E; [|apply reads_raise].
    unfold truthy. destruct (String.eqb_spec v EmptyString) as [->|Hne]; simpl;
      [apply reads_raise|].
    eapply reads_weaken; [|exact IH].
    intros u H f' [<-|Hin]; [now exists v|now apply H].
Qed.

Lemma reads_check_length (message_text : string) :
  reads (check_length message_text)
    (fun _ => String.length message_text <= 1000).
Proof.
  unfold check_length.
  destruct (Nat.ltb_spec 1000 (String.length message_text));
    [apply reads_raise|now apply reads_ret].
Qed.

Lemma writes_once_raise (A : Type) (valid : Message -> Prop) (e : PyExn) :
  writes_once_at_end valid (raise (A := A) e).
Proof.
  intros w. simpl. repeat split. exists []. split; [reflexivity|].
  split; [reflexivity|]. left. now rewrite app_nil_r.
Qed.

Lemma writes_once_put (A : Type) (valid : Message -> Prop) (row : Message)
  (a : A) :
  valid row -> writes_once_at_end valid (bind (put_item row) (fun _ => ret a)).
Proof.
  intros Hv w. unfold bind, put_item, service.
  destruct (faults w (List.length (calls w))) as [[code msg]|] eqn:E; simpl;
    repeat split; exists []; (split; [reflexivity|]).
  - split; [reflexivity|]. right. exists row.
    rewrite app_nil_r. repeat split; [exact Hv|]. now rewrite E.
  - exists row. repeat split. exact Hv.
Qed.

Lemma writes_once_bind (A B : Type) (valid : Message -> Prop) (c : M A)
  (k : A -> M B) (P : A -> Prop) :
  reads c P -> (forall a, P a -> writes_once_at_end valid (k a)) ->
  writes_once_at_end valid (bind c k).
Proof.
  intros Hc Hk w. destruct (Hc w) as (ops1 & Hw1 & Hp). unfold bind.
  destruct (c w) as [[e|a] w1]; simpl in *;
    destruct Hw1 as (Hm1 & Hr1 & Hi1 & Hf1 & Hc1 & Ho1).
  - repeat split; try assumption. exists ops1. split; [exact Ho1|].
    split; [exact Hm1|]. now left.
  - specialize (Hk a Hp w1). simpl in Hk.
    destruct Hk as (Hr2 & Hi2 & Hf2 & ops2 & Ho2 & Hout).
    repeat split; try congruence.
    exists (ops1 ++ ops2)%list. split; [now rewrite forallb_app, Ho1, Ho2|].
    rewrite Hc1, Hm1, Hf1 in Hout.
    destruct (fst (k a w1)).
    + destruct Hout as (Hm2 & Hcalls). split; [exact Hm2|].
      destruct Hcalls as [Hcalls|(row & Hv & Hcalls & Hfault)].
      * left. rewrite Hcalls. now rewrite app_assoc.
      * right. exists row. split; [exact Hv|]. split.
        -- rewrite Hcalls. now rewrite <- !app_assoc.
        -- now rewrite app_assoc.
    + destruct Hout as (row & Hv & Hcalls & Hm2). exists row.
      split; [exact Hv|]. split; [|exact Hm2].
      rewrite Hcalls. now rewrite <- !app_assoc.
Qed.

Lemma writes_once_try_except (A : Type) (valid : Message -> Prop) (c : M A)
  (h : PyExn -> M A) :
  (forall e, exists e', h e = raise e') ->
  writes_once_at_end valid c -> writes_once_at_end valid (try_except c h).
Proof.
  intros Hh Hc w. specialize (Hc w). unfold try_except. simpl in Hc.
  destruct (c w) as [[e|a] w1]; simpl in *; [|exact Hc].
  destruct (Hh e) as (e' & ->). exact Hc.
Qed.

End EffectsFacts.

Module SendReplyFacts.
Import Store Effects Validation SendReply EffectsFacts.

Lemma on_error_raises (e : PyExn) : exists e', on_error e = raise e'.
Proof. destruct e; simpl; eexists; reflexivity. Qed.

Lemma reads_step1 (item_id user_id recipient_user_id : string) :
  reads (step1 item_id user_id recipient_user_id) (fun _ => True).
Proof.
  unfold step1. eapply reads_bind; [apply reads_query|].
  intros response _. now apply reads_ret.
Qed.

Lemma reads_step2 (item_id user_id recipient_user_id : string)
  (existing_message : option Existing) :
  reads (step2 item_id user_id recipient_user_id existing_message)
    (fun _ => True).
Proof.
  unfold step2. destruct existing_message; [now apply reads_ret|].
  eapply reads_bind; [apply reads_query|].
  intros response _. now apply reads_ret.
Qed.

Lemma reads_step3 (item_id user_id recipient_user_id : string)
  (existing_message : option Existing) :
  reads (step3 item_id user_id recipient_user_id existing_message)
    (fun _ => True).
Proof.
  unfold step3. destruct existing_message; [now apply reads_ret|].
  eapply reads_bind; [apply reads_scan|].
  intros response _. now apply reads_ret.
Qed.

Lemma reads_step4 (item_id : string) (existing_message : option Existing) :
  reads (step4 item_id existing_message) (fun _ => True).
Proof.
  unfold step4. destruct existing_message; [now apply reads_ret|].
  eapply reads_bind; [apply reads_load_global|]. intros _ _.
  apply reads_try_except.
  - eapply reads_bind; [apply reads_get_item|].
    intros item_response _. now apply reads_ret.
  - intros e. now apply reads_ret.
Qed.

Lemma reads_find_existing_message (item_id user_id recipient_user_id : string) :
  reads (find_existing_message item_id user_id recipient_user_id)
    (fun _ => True).
Proof.
  unfold find_existing_message.
  eapply reads_bind; [apply reads_step1|]. intros x1 _.
  eapply reads_bind; [apply reads_step2|]. intros x2 _.
  eapply reads_bind; [apply reads_step3|]. intros x3 _.
  apply reads_step4.
Qed.

(** What [validate] returns has gone through every check. *)
Lemma reads_validate (user_id : string) (b : Body) :
  reads (validate user_id b)
    (fun fields =>
       let '(item_id, recipient_user_id, message_text) := fields in
       item_id <> EmptyString /\ recipient_user_id <> EmptyString /\ message_text <> EmptyString
       /\ String.length message_text <= 1000
       /\ recipient_user_id <> user_id).
Proof.
  unfold validate.
  eapply reads_bind; [apply reads_check_required|]. intros u0 Hreq.
  eapply reads_bind; [apply reads_subscript|]. intros item_id Hi.
  eapply reads_bind; [apply reads_subscript|]. intros recipient_user_id Hr.
  eapply reads_bind; [apply reads_subscript|]. intros message_text Hm.
  eapply reads_bind; [apply reads_check_length|]. intros u1 Hlen.
  destruct (String.eqb_spec recipient_user_id user_id) as [E|Hne].
  - eapply reads_bind; [apply reads_raise with (post := fun _ => False)|].
    intros u2 [].
  - eapply reads_bind; [apply reads_ret with (post := fun _ => True); exact I|].
    intros u2 _. apply reads_ret. cbv beta in *.
    destruct (Hreq "itemId") as (v1 & Hv1 & Hne1); [simpl; tauto|].
    destruct (Hreq "recipientUserId") as (v2 & Hv2 & Hne2); [simpl; tauto|].
    destruct (Hreq "message") as (v3 & Hv3 & Hne3); [simpl; tauto|].
    rewrite Hv1 in Hi. rewrite Hv2 in Hr. rewrite Hv3 in Hm.
    injection Hi as <-. injection Hr as <-. injection Hm as <-.
    repeat split; assumption.
Qed.

Lemma message_record_validated (rt : Runtime) (item_id recipient_user_id
  user_id user_email user_name message_text : string) (x : Existing) :
  item_id <> EmptyString -> recipient_user_id <> EmptyString -> message_text <> EmptyString ->
  String.length message_text <= 1000 -> recipient_user_id <> user_id ->
  validated rt
    (message_record rt item_id recipient_user_id user_id user_email user_name
       message_text x).
Proof.
  intros Hi Hr Hm Hlen Hne. unfold message_record.
  destruct (recipient_details x recipient_user_id) as [recipient_name e].
  unfold validated. simpl. repeat split; try assumption.
  intros E. now apply Hne.
Qed.

Lemma writes_once_resolve_and_send (rt : Runtime) (event : Event) :
  writes_once_at_end (validated rt) (resolve_and_send rt event).
Proof.
  unfold resolve_and_send.
  eapply writes_once_bind; [apply reads_get_claims|]. intros c _.
  eapply writes_once_bind; [apply reads_subscript|]. intros user_id _.
  eapply writes_once_bind; [apply reads_subscript|]. intros user_email _.
  eapply writes_once_bind; [apply reads_validate|].
  intros [[item_id recipient_user_id] message_text] (Hi & Hr & Hm & Hlen & Hne).
  eapply writes_once_bind; [apply reads_find_existing_message|].
  intros [x|] _; unfold store_reply.
  - apply writes_once_put. now apply message_record_validated.
  - apply writes_once_raise.
Qed.

(** A world without faults answers every call. *)
Lemma service_answers (A : Type) (c : Call) (answer : World -> A)
  (effect : World -> World) (w : World) :
  no_faults w -> service c answer effect w = (inr (answer w), effect (log c w)).
Proof. intros Hw. unfold service. now rewrite Hw. Qed.

Lemma no_faults_log (c : Call) (w : World) : no_faults w -> no_faults (log c w).
Proof. intros Hw n. apply Hw. Qed.

Lemma hd_error_filter (A : Type) (p : A -> bool) (l : list A) :
  hd_error (filter p l) = find p l.
Proof.
  induction l as [|a l IH]; simpl; [reflexivity|].
  destruct (p a); [reflexivity|exact IH].
Qed.

(** The checks pass on a complete request to somebody else. *)
Lemma validate_passes (user_id item_id recipient_user_id message_text : string)
  (w : World) :
  item_id <> EmptyString -> recipient_user_id <> EmptyString -> message_text <> EmptyString ->
  String.length message_text <= 1000 -> recipient_user_id <> user_id ->
  validate user_id
    (mkBody (Some item_id) (Some recipient_user_id) (Some message_text)) w
  = (inr (item_id, recipient_user_id, message_text), w).
Proof.
  intros Hi Hr Hm Hlen Hne. unfold validate, bind. simpl. unfold truthy.
  apply String.eqb_neq in Hi, Hr, Hm, Hne. rewrite Hi, Hr, Hm. simpl.
  unfold check_length.
  destruct (Nat.ltb_spec 1000 (String.length message_text)); [lia|].
  simpl. now rewrite Hne.
Qed.

Lemma find_existing_message_found (item_id user_id recipient_user_id : string)
  (w : World) (m : Message) :
  no_faults w ->
  chain_result item_id user_id recipient_user_id w = Some m ->
  exists w',
    find_existing_message item_id user_id recipient_user_id w
    = (inr (Some (PriorMessage m)), w')
    /\ reads_from w w' (skipn (List.length (calls w)) (calls w'))
    /\ no_faults w'.
Proof.
  intros Hw Hchain. unfold chain_result in Hchain.
  unfold find_existing_message, bind, step1, bind, query_recipient_index.
  rewrite (service_answers _ _ _ _ _ Hw). simpl.
  destruct (find (match_received item_id recipient_user_id)
              (index_rows user_id w)) as [m1|] eqn:E1; simpl.
  - injection Hchain as ->. eexists. split; [reflexivity|]. split.
    + unfold reads_from. simpl. rewrite skipn_app, skipn_all, Nat.sub_diag.
      simpl. repeat split; reflexivity.
    + now apply no_faults_log.
  - unfold bind, query_recipient_index.
    rewrite (service_answers _ _ _ _ _ (no_faults_log _ _ Hw)). simpl.
    change (index_rows recipient_user_id (log (Query user_id true) w))
      with (index_rows recipient_user_id w).
    destruct (find (match_sent item_id user_id)
                (index_rows recipient_user_id w)) as [m2|] eqn:E2; simpl.
    + injection Hchain as ->. eexists. split; [reflexivity|]. split.
      * unfold reads_from. simpl. rewrite <- app_assoc.
        rewrite skipn_app, skipn_all, Nat.sub_diag.
        simpl. repeat split; reflexivity.
      * now repeat apply no_faults_log.
    + unfold bind, scan.
      rewrite (service_answers _ _ _ _ _
                 (no_faults_log _ _ (no_faults_log _ _ Hw))).
      cbn -[firstn].
      rewrite hd_error_filter, Hchain. simpl. eexists. split; [reflexivity|]. split.
      * unfold reads_from. simpl. rewrite <- !app_assoc.
        rewrite skipn_app, skipn_all, Nat.sub_diag.
        simpl. repeat split; reflexivity.
      * now repeat apply no_faults_log.
Qed.

Lemma find_existing_message_missed (item_id user_id recipient_user_id : string)
  (w : World) :
  no_faults w ->
  chain_result item_id user_id recipient_user_id w = None ->
  fst (find_existing_message item_id user_id recipient_user_id w)
  = inl (NameError "dynamodb").
Proof.
  intros Hw Hchain. unfold chain_result in Hchain.
  unfold find_existing_message, bind, step1, bind, query_recipient_index.
  rewrite (service_answers _ _ _ _ _ Hw). simpl.
  destruct (find (match_received item_id recipient_user_id)
              (index_rows user_id w)) as [m1|] eqn:E1; [discriminate|]. simpl.
  unfold bind, query_recipient_index.
  rewrite (service_answers _ _ _ _ _ (no_faults_log _ _ Hw)). simpl.
  change (index_rows recipient_user_id (log (Query user_id true) w))
    with (index_rows recipient_user_id w).
  destruct (find (match_sent item_id user_id)
              (index_rows recipient_user_id w)) as [m2|] eqn:E2;
    [discriminate|]. simpl.
  unfold bind, scan.
  rewrite (service_answers _ _ _ _ _
             (no_faults_log _ _ (no_faults_log _ _ Hw))).
  cbn -[firstn].
  rewrite hd_error_filter, Hchain. reflexivity.
Qed.

End SendReplyFacts.

Module HandlerFacts.
Import Store Effects Validation EffectsFacts SendReplyFacts.

Lemma reads_get_messages (event : Event) :
  reads (GetMessagesHandler.lambda_handler event) (fun _ => True).
Proof.
  unfold GetMessagesHandler.lambda_handler. apply reads_try_except.
  - eapply reads_bind; [apply reads_get_claims|]. intros c _.
    eapply reads_bind; [apply reads_subscript|]. intros user_id _.
    eapply reads_bind; [apply reads_subscript|]. intros user_email _.
    eapply reads_bind; [apply reads_query|]. intros messages_received _.
    eapply reads_bind; [apply reads_scan|]. intros messages_sent _.
    now apply reads_ret.
  - intros e. destruct e; apply reads_raise.
Qed.

(** When the handler returns, it returns the aggregation of what the two
    reads gave. *)
Lemma get_messages_returns_aggregate (event : Event) (w w' : World)
  (response : GetMessages.Response) :
  GetMessagesHandler.lambda_handler event w = (inr response, w') ->
  exists user_id msgs, response = GetMessages.aggregate user_id msgs.
Proof.
  unfold GetMessagesHandler.lambda_handler, try_except, bind, get_claims,
    subscript, query_recipient_index, scan, service.
  destruct (claims event) as [c|]; simpl; [|discriminate].
  destruct (sub c) as [user_id|]; simpl; [|discriminate].
  destruct (email c) as [user_email|]; simpl; [|discriminate].
  destruct (faults w (List.length (calls w))) as [[code msg]|]; simpl;
    [discriminate|].
  destruct (faults w (List.length (calls w ++ [Query user_id false])))
    as [[code msg]|]; simpl; [discriminate|].
  intros [= <- _]. eexists _, _. reflexivity.
Qed.

Lemma send_reply_run (rt : Runtime) (user_id user_email : string)
  (nm : option string) (b : Body) (w : World) :
  SendReply.send_reply_message_in_existing_conversation_thread rt
    (mkEvent (Some (mkClaims (Some user_id) (Some user_email) nm)) b) w
  = try_except
      (fields <- SendReply.validate user_id b ;;
       let '(item_id, recipient_user_id, message_text) := fields in
       existing_message <-
         SendReply.find_existing_message item_id user_id recipient_user_id ;;
       SendReply.store_reply rt item_id recipient_user_id user_id user_email
         (display_name (mkClaims (Some user_id) (Some user_email) nm)
            user_email)
         message_text existing_message)
      SendReply.on_error w.
Proof. reflexivity. Qed.

(** With nothing found by the two queries and the scan, the resolver stops on
    the unbound name of step 4, whatever the items table holds. *)
Lemma resolver_total_miss_internal_error (rt : Runtime)
  (user_id user_email item_id recipient_user_id message_text : string)
  (nm : option string) (w : World) :
  no_faults w ->
  item_id <> EmptyString -> recipient_user_id <> EmptyString -> message_text <> EmptyString ->
  String.length message_text <= 1000 -> recipient_user_id <> user_id ->
  chain_result item_id user_id recipient_user_id w = None ->
  fst (SendReply.send_reply_message_in_existing_conversation_thread rt
         (mkEvent (Some (mkClaims (Some user_id) (Some user_email) nm))
            (mkBody (Some item_id) (Some recipient_user_id)
               (Some message_text))) w)
  = inl (Exception "Internal server error: name 'dynamodb' is not defined").
Proof.
  intros Hw Hi Hr Hm Hlen Hne Hchain. rewrite send_reply_run.
  unfold try_except, bind. rewrite validate_passes by assumption.
  pose proof (find_existing_message_missed _ _ _ _ Hw Hchain) as Hmiss.
  destruct (SendReply.find_existing_message item_id user_id
              recipient_user_id w) as [[e|x] w1]; simpl in Hmiss;
    [|discriminate].
  injection Hmiss as ->. reflexivity.
Qed.

(** The first-contact handler lets through every sender whose e-mail address
    differs from the one recorded on the item, and addresses the row to the
    [userId] of the item, whatever the sender's id. *)
Lemma contact_compares_emails (rt : Runtime)
  (user_id user_email item_id message_text : string) (nm : option string)
  (item : Item) (w : World) :
  no_faults w ->
  item_id <> EmptyString -> message_text <> EmptyString ->
  String.length message_text <= 1000 ->
  find (fun it => String.eqb (item_row_id it) item_id) (items_table w)
  = Some item ->
  userEmail item <> user_email ->
  messages_table
    (snd (SendContact.lambda_handler rt
            (mkEvent (Some (mkClaims (Some user_id) (Some user_email) nm))
               (mkBody (Some item_id) None (Some message_text))) w))
  = (messages_table w
     ++ [SendContact.message_record rt item_id item user_id user_email
           (display_name (mkClaims (Some user_id) (Some user_email) nm)
              user_email)
           message_text])%list.
Proof.
  intros Hw Hi Hm Hlen Hitem Hmail.
  unfold SendContact.lambda_handler, SendContact.contact, try_except, bind.
  simpl. unfold truthy.
  apply String.eqb_neq in Hi, Hm, Hmail. rewrite Hi, Hm. simpl.
  unfold check_length.
  destruct (Nat.ltb_spec 1000 (String.length message_text)); [lia|].
  simpl. unfold get_item. rewrite (service_answers _ _ _ _ _ Hw).
  rewrite Hitem, Hmail. simpl. unfold put_item.
  rewrite (service_answers _ _ _ _ _ (no_faults_log _ _ Hw)).
  reflexivity.
Qed.

End HandlerFacts.

(* ===================================================================== *)
(** * The properties of the handlers *)
(* ===================================================================== *)

(** C9: the handler of GET /messages only reads: whatever the event and the
    state, the messages table, the index and the items table are left as
    they were, and every service call made is a query or a scan. *)
Theorem get_messages_only_reads :
  forall (event : Event) (w : Store.World),
    exists ops,
      Effects.reads_from w
        (snd (GetMessagesHandler.lambda_handler event w)) ops.
Proof.
  intros event w.
  destruct (HandlerFacts.reads_get_messages event w) as (ops & Hreads & _).
  now exists ops.
Qed.

(** C10: the reply handler writes at most one row, by its last service call,
    after reads only and on a request that passed every check.  When it
    fails, whatever the reason, the messages table is as it was: either
    [PutItem] was never called, or it was the last call and the service
    failed it.  When it succeeds, exactly the new row has been appended. *)
Theorem reply_writes_once_after_resolution :
  forall (rt : Runtime) (event : Event),
    Effects.writes_once_at_end (Effects.validated rt)
      (SendReply.send_reply_message_in_existing_conversation_thread rt event).
Proof.
  intros rt event.
  unfold SendReply.send_reply_message_in_existing_conversation_thread.
  apply EffectsFacts.writes_once_try_except.
  - apply SendReplyFacts.on_error_raises.
  - apply SendReplyFacts.writes_once_resolve_and_send.
Qed.

(** C4, as stated, fails: a reply to oneself whose text has 1001 characters
    carries every required field and is rejected for its length, not as a
    message to oneself. *)
Lemma self_reply_oversized_counterexample :
  let event := request "u-alice" "alice@example.com" None "I1" "u-alice"
                 (PyStr.replicate 1001 "a") in
  fst (SendReply.send_reply_message_in_existing_conversation_thread
         sample_runtime event empty_world)
  = inl (Store.Exception "Message must be less than 1000 characters")
  /\ fst (SendReply.send_reply_message_in_existing_conversation_thread
            sample_runtime event empty_world)
     <> inl (Store.Exception SendReply.self_message).
Proof.
  assert (H : fst (SendReply.send_reply_message_in_existing_conversation_thread
                     sample_runtime
                     (request "u-alice" "alice@example.com" None "I1" "u-alice"
                        (PyStr.replicate 1001 "a")) empty_world)
              = inl (Store.Exception
                       "Message must be less than 1000 characters"))
    by (vm_compute; reflexivity).
  split; [exact H|]. cbv zeta. rewrite H. discriminate.
Qed.

(** C4, amended: a reply whose recipient is the sender, with every required
    field present and a text of at most 1000 characters, fails with
    "You cannot send a message to yourself", whatever the state; the state
    is untouched, so no service call was made. *)
Theorem self_reply_rejected_before_any_lookup :
  forall (rt : Runtime) (w : Store.World) (user_id user_email : string)
         (nm : option string) (item_id message_text : string),
    user_id <> EmptyString -> item_id <> EmptyString -> message_text <> EmptyString ->
    String.length message_text <= 1000 ->
    SendReply.send_reply_message_in_existing_conversation_thread rt
      (request user_id user_email nm item_id user_id message_text) w
    = (inl (Store.Exception SendReply.self_message), w).
Proof.
  intros rt w user_id user_email nm item_id message_text Hu Hi Hm Hlen.
  unfold request. rewrite HandlerFacts.send_reply_run.
  unfold Store.try_except, Store.bind, SendReply.validate, Store.bind.
  simpl. unfold Validation.truthy.
  apply String.eqb_neq in Hu, Hi, Hm. rewrite Hu, Hi, Hm. simpl.
  unfold Validation.check_length.
  destruct (Nat.ltb_spec 1000 (String.length message_text)); [lia|].
  simpl. rewrite String.eqb_refl. reflexivity.
Qed.

Lemma self_reply_rejected_witness :
  SendReply.send_reply_message_in_existing_conversation_thread sample_runtime
    (request "u-alice" "alice@example.com" None "I1" "u-alice" "hello")
    fresh_thread_world
  = (inl (Store.Exception SendReply.self_message), fresh_thread_world).
Proof.
  apply self_reply_rejected_before_any_lookup;
    try discriminate; simpl; lia.
Defined.

(** C1, on the code: with an empty store and no item, a valid reply does not
    fail with the message of [not_found_message] but with the internal error
    of the unbound name [dynamodb], read at step 4 before the item is looked
    up; the service calls made are the two queries and the scan. *)
Theorem total_miss_raises_internal_error :
  fst (SendReply.send_reply_message_in_existing_conversation_thread
         sample_runtime
         (request "u-alice" "alice@example.com" None "I1" "u-bob" "hello")
         empty_world)
  = inl (Store.Exception
           "Internal server error: name 'dynamodb' is not defined")
  /\ fst (SendReply.send_reply_message_in_existing_conversation_thread
            sample_runtime
            (request "u-alice" "alice@example.com" None "I1" "u-bob" "hello")
            empty_world)
     <> inl (Store.Exception SendReply.not_found_message)
  /\ Store.calls
       (snd (SendReply.send_reply_message_in_existing_conversation_thread
               sample_runtime
               (request "u-alice" "alice@example.com" None "I1" "u-bob" "hello")
               empty_world))
     = [Store.Query "u-alice" true; Store.Query "u-bob" true;
        Store.Scan (Some 10)].
Proof.
  split; [vm_compute; reflexivity|]. split; [|vm_compute; reflexivity].
  vm_compute. discriminate.
Qed.

(** C2, as stated, fails: the first contact of bob to alice is in the table,
    the index shows nothing, and alice's reply is not sent, because the scan
    reads ten rows only and the contact is the eleventh. *)
Lemma scan_limit_counterexample :
  let w := crowded_world in
  let out :=
    SendReply.send_reply_message_in_existing_conversation_thread
      sample_runtime
      (request "alice" "alice@example.com" None "I1" "bob" "Yes, it is.") w in
  find (SendReply.match_received "I1" "bob") (Store.index_rows "alice" w) = None
  /\ find (SendReply.match_sent "I1" "alice") (Store.index_rows "bob" w) = None
  /\ (exists m, In m (Store.messages_table w)
                /\ itemId m = "I1"
                /\ senderUserId m = "bob" /\ recipientUserId m = "alice")
  /\ fst out
     = inl (Store.Exception
              "Internal server error: name 'dynamodb' is not defined")
  /\ Store.messages_table (snd out) = Store.messages_table w.
Proof.
  cbv zeta. split; [reflexivity|]. split; [reflexivity|]. split.
  - exists (sample_message "m1" "I1" "bob" "alice" "2026-01-31T18:00:00Z").
    split; [|repeat split]. unfold crowded_world. simpl. tauto.
  - split; vm_compute; reflexivity.
Qed.

(** C2, amended: when no service call fails, the two index queries show no
    matching message, and one of the first ten rows read by the scan is about
    the item and between the two users, in either direction, the reply is
    sent with the context of the first such row: its item title and status,
    and the recipient's name and e-mail address taken from it. *)
Theorem scan_within_limit_resolves :
  forall (rt : Runtime) (w : Store.World) (user_id user_email : string)
         (nm : option string) (item_id recipient_user_id message_text : string)
         (m : Message),
    Effects.no_faults w ->
    item_id <> EmptyString -> recipient_user_id <> EmptyString -> message_text <> EmptyString ->
    String.length message_text <= 1000 -> recipient_user_id <> user_id ->
    find (SendReply.match_received item_id recipient_user_id)
      (Store.index_rows user_id w) = None ->
    find (SendReply.match_sent item_id user_id)
      (Store.index_rows recipient_user_id w) = None ->
    In m (firstn SendReply.scan_limit (Store.messages_table w)) ->
    SendReply.match_pair item_id user_id recipient_user_id m = true ->
    let out :=
      SendReply.send_reply_message_in_existing_conversation_thread rt
        (request user_id user_email nm item_id recipient_user_id message_text)
        w in
    exists found,
      find (SendReply.match_pair item_id user_id recipient_user_id)
        (firstn SendReply.scan_limit (Store.messages_table w)) = Some found
      /\ fst out = inr {| SendReply.messageId := uuid4 rt;
                          SendReply.sentAt := utcnow rt |}
      /\ Store.messages_table (snd out)
         = (Store.messages_table w
            ++ [SendReply.message_record rt item_id recipient_user_id user_id
                  user_email
                  (Validation.display_name
                     (mkClaims (Some user_id) (Some user_email) nm) user_email)
                  message_text (SendReply.PriorMessage found)])%list.
Proof.
  intros rt w user_id user_email nm item_id recipient_user_id message_text m
    Hw Hi Hr Hm Hlen Hne E1 E2 Hin Hmatch out.
  destruct (find (SendReply.match_pair item_id user_id recipient_user_id)
              (firstn SendReply.scan_limit (Store.messages_table w)))
    as [found|] eqn:E3.
  2:{ pose proof (find_none _ _ E3 m Hin) as Hno. congruence. }
  exists found. split; [reflexivity|].
  assert (Hchain : Effects.chain_result item_id user_id recipient_user_id w
                   = Some found)
    by (unfold Effects.chain_result; now rewrite E1, E2).
  destruct (SendReplyFacts.find_existing_message_found _ _ _ _ _ Hw Hchain)
    as (w1 & Hrun & Hreads & Hw1).
  subst out. unfold request. rewrite HandlerFacts.send_reply_run.
  unfold Store.try_except, Store.bind.
  rewrite SendReplyFacts.validate_passes by assumption.
  rewrite Hrun. unfold SendReply.store_reply, Store.bind, Store.put_item.
  rewrite (SendReplyFacts.service_answers _ _ _ _ _ Hw1). simpl.
  split; [reflexivity|].
  destruct Hreads as (Htable & _). now rewrite Htable.
Qed.

Lemma scan_within_limit_resolves_witness :
  exists found,
    find (SendReply.match_pair "I1" "alice" "bob")
      (firstn SendReply.scan_limit (Store.messages_table fresh_thread_world))
    = Some found
    /\ fst (SendReply.send_reply_message_in_existing_conversation_thread
              sample_runtime
              (request "alice" "alice@example.com" None "I1" "bob"
                 "Yes, it is.")
              fresh_thread_world)
       = inr {| SendReply.messageId := uuid4 sample_runtime;
                SendReply.sentAt := utcnow sample_runtime |}
    /\ Store.messages_table
         (snd (SendReply.send_reply_message_in_existing_conversation_thread
                 sample_runtime
                 (request "alice" "alice@example.com" None "I1" "bob"
                    "Yes, it is.")
                 fresh_thread_world))
       = (Store.messages_table fresh_thread_world
          ++ [SendReply.message_record sample_runtime "I1" "bob" "alice"
                "alice@example.com"
                (Validation.display_name
                   (mkClaims (Some "alice") (Some "alice@example.com") None)
                   "alice@example.com")
                "Yes, it is." (SendReply.PriorMessage found)])%list.
Proof.
  apply (scan_within_limit_resolves sample_runtime fresh_thread_world
           "alice" "alice@example.com" None "I1" "bob" "Yes, it is."
           (sample_message "m1" "I1" "bob" "alice" "2026-01-31T18:00:00Z")).
  - intros n. reflexivity.
  - discriminate.
  - discriminate.
  - discriminate.
  - simpl. lia.
  - discriminate.
  - reflexivity.
  - reflexivity.
  - simpl. left. reflexivity.
  - reflexivity.
Defined.

(** C3, on the code: the first-contact handler compares e-mail addresses,
    not user ids.  The owner of an item whose recorded address differs from
    the one in the token contacts their own item, and the row written has
    the same [senderUserId] and [recipientUserId]. *)
Theorem contact_own_item_stores_self_message :
  let out :=
    SendContact.lambda_handler sample_runtime
      (mkEvent
         (Some (mkClaims (Some "u-alice") (Some "alice@new.example.com") None))
         (mkBody (Some "I1") None (Some "Found it myself.")))
      own_item_world in
  exists sent row,
    fst out = inr sent
    /\ Store.messages_table (snd out) = [row]
    /\ senderUserId row = "u-alice"
    /\ recipientUserId row = "u-alice".
Proof.
  cbv zeta. eexists _, _. vm_compute. repeat split.
Qed.

(* ===================================================================== *)
(** * Further properties of the aggregator *)
(* ===================================================================== *)

Module ConversationFacts.
Import GetMessages ThreadSpec Conversation GetMessagesFacts.

Lemma sum_app (l1 l2 : list nat) :
  PyList.sum (l1 ++ l2) = PyList.sum l1 + PyList.sum l2.
Proof.
  unfold PyList.sum. induction l1 as [|a l1 IH]; simpl; [reflexivity|].
  rewrite IH. lia.
Qed.

Lemma sum_perm (l1 l2 : list nat) :
  Permutation l1 l2 -> PyList.sum l1 = PyList.sum l2.
Proof.
  unfold PyList.sum. induction 1; simpl; lia.
Qed.

(** A key that occurs once among [keys] is hit once. *)
Lemma sum_indicator (x : string) (keys : list string) :
  NoDup keys -> In x keys ->
  PyList.sum (map (fun k => if String.eqb x k then 1 else 0) keys) = 1.
Proof.
  unfold PyList.sum. induction 1 as [|k keys Hk Hnd IH]; simpl; [tauto|].
  intros [->|Hin].
  - rewrite String.eqb_refl.
    assert (Hz : fold_right Nat.add 0
                   (map (fun k0 => if String.eqb x k0 then 1 else 0) keys) = 0).
    { clear IH Hnd. induction keys as [|k keys IH]; simpl; [reflexivity|].
      destruct (String.eqb_spec x k) as [->|_].
      - exfalso. apply Hk. now left.
      - apply IH. intros H. apply Hk. now right. }
    rewrite Hz. reflexivity.
  - destruct (String.eqb_spec x k) as [->|_]; [contradiction|].
    now apply IH.
Qed.

(** The selected messages of the conversations add up to those of the
    input. *)
Lemma sum_groups (p : Message -> bool) (keys : list string)
  (msgs : list Message) :
  NoDup keys ->
  (forall m, In m msgs -> In (thread_id m) keys) ->
  PyList.sum (map (fun k => List.length (filter p (group_of k msgs))) keys)
  = List.length (filter p msgs).
Proof.
  intros Hnd. induction msgs as [|m msgs IH]; intros Hkeys.
  - simpl. clear Hnd Hkeys. induction keys; simpl; auto.
  - assert (Hstep : forall ks,
              PyList.sum
                (map (fun k => List.length (filter p (group_of k (m :: msgs))))
                   ks)
              = (if p m then
                   PyList.sum
                     (map (fun k => if String.eqb (thread_id m) k then 1 else 0)
                        ks)
                 else 0)
                + PyList.sum
                    (map (fun k => List.length (filter p (group_of k msgs)))
                       ks)).
    { unfold PyList.sum. induction ks as [|k ks IHk].
      - simpl. now destruct (p m).
      - cbn [map fold_right]. rewrite IHk.
        unfold group_of at 1. cbn [filter]. fold (group_of k msgs).
        destruct (String.eqb (thread_id m) k); cbn [filter];
          destruct (p m); simpl; lia. }
    rewrite Hstep, IH by (intros m' Hm'; apply Hkeys; now right).
    simpl. destruct (p m); simpl; [|reflexivity].
    rewrite sum_indicator; [reflexivity|exact Hnd|].
    apply Hkeys. now left.
Qed.

Lemma filter_all (A : Type) (l : list A) : filter (fun _ => true) l = l.
Proof. induction l as [|a l IH]; simpl; [reflexivity|now rewrite IH]. Qed.

Lemma head_inv_snoc (user_id : string) (done : list Message) (m : Message)
  (kt : string * Thread) :
  head_inv user_id done kt -> head_inv user_id (done ++ [m]) kt.
Proof.
  intros (m0 & rest & Hg & Hh). unfold head_inv, created_by_first.
  rewrite group_of_snoc, Hg. simpl. eauto.
Qed.

Lemma header_add_message (user_id : string) (m0 m : Message) (t : Thread) :
  header_of user_id m0 t -> header_of user_id m0 (add_message user_id m t).
Proof. intros H. exact H. Qed.

Lemma header_new_thread (user_id : string) (m : Message) :
  header_of user_id m (new_thread user_id m).
Proof.
  unfold header_of, new_thread. simpl.
  destruct (String.eqb (senderUserId m) user_id); simpl; repeat split.
Qed.

Lemma group_step_head_inv (user_id : string) (done : list Message)
  (m : Message) (d : Threads) :
  dict_inv user_id done d ->
  Forall (head_inv user_id done) d ->
  Forall (head_inv user_id (done ++ [m])) (group_step user_id d m).
Proof.
  intros (Hnodup & Hall & Hkeys) Hhead. unfold group_step.
  destruct (dict_get (thread_id m) d) as [t0|] eqn:Hget.
  - destruct (dict_set_old _ _ _ Hget) as (d1 & d2 & -> & Hset).
    rewrite Hset. apply Forall_app in Hhead. destruct Hhead as [H1 H2].
    inversion H2 as [|? ? H0 H2']; subst.
    apply Forall_app. split; [|constructor].
    + eapply Forall_impl; [|exact H1]. intros kt. apply head_inv_snoc.
    + apply head_inv_snoc with (m := m) in H0.
      destruct H0 as (m0 & rest & Hg & Hh). exists m0, rest.
      split; [exact Hg|]. now apply header_add_message.
    + eapply Forall_impl; [|exact H2']. intros kt. apply head_inv_snoc.
  - pose proof (dict_get_None _ _ Hget) as Hout.
    rewrite (dict_set_new _ _ _ Hget).
    apply Forall_app. split; [|constructor; [|constructor]].
    + eapply Forall_impl; [|exact Hhead]. intros kt. apply head_inv_snoc.
    + exists m, []. split.
      * simpl. rewrite group_of_snoc, String.eqb_refl.
        now rewrite (group_of_absent _ _ _ Hkeys Hout).
      * apply header_add_message. apply header_new_thread.
Qed.

Lemma fold_group_step_head_inv (user_id : string) (rest done : list Message)
  (d : Threads) :
  dict_inv user_id done d ->
  Forall (head_inv user_id done) d ->
  Forall (head_inv user_id (done ++ rest))
    (fold_left (group_step user_id) rest d).
Proof.
  revert done d. induction rest as [|m rest IH]; intros done d Hinv Hhead;
    simpl.
  - now rewrite app_nil_r.
  - replace (done ++ m :: rest)%list with ((done ++ [m]) ++ rest)%list
      by (rewrite <- app_assoc; reflexivity).
    apply IH; [now apply group_step_inv|now apply group_step_head_inv].
Qed.

Lemma group_messages_head_inv (user_id : string) (msgs : list Message) :
  Forall (head_inv user_id msgs) (group_messages user_id msgs).
Proof.
  apply (fold_group_step_head_inv user_id msgs []); [|constructor].
  split; [constructor|]. split; [constructor|]. intros m [].
Qed.

(** The threads of the response are the entries of the grouping, sorted, in
    some order. *)
Lemma threads_perm (user_id : string) (msgs : list Message) :
  Permutation (threads (aggregate user_id msgs))
    (map (fun kt => sort_thread (snd kt)) (group_messages user_id msgs)).
Proof.
  unfold aggregate, dict_values. simpl. rewrite map_map.
  apply PyListFacts.stable_sort_perm.
Qed.

Lemma entry_threadId (user_id : string) (msgs : list Message) :
  map (fun kt => threadId (sort_thread (snd kt))) (group_messages user_id msgs)
  = map fst (group_messages user_id msgs).
Proof.
  destruct (group_messages_inv user_id msgs) as (_ & Hall & _).
  revert Hall. generalize (group_messages user_id msgs). intros d.
  induction 1 as [|kt d (Hid & _) _ IH]; [reflexivity|].
  cbn [map]. f_equal; [exact Hid|exact IH].
Qed.

(** A quantity of the sorted entries that depends on the key only. *)
Lemma entry_measure (user_id : string) (msgs : list Message)
  (f : Thread -> nat) (g : string -> nat) :
  (forall kt, thread_inv user_id msgs kt -> f (sort_thread (snd kt)) = g (fst kt)) ->
  PyList.sum (map f (threads (aggregate user_id msgs)))
  = PyList.sum (map g (map fst (group_messages user_id msgs))).
Proof.
  intros Hfg.
  rewrite (sum_perm _ _ (Permutation_map f (threads_perm user_id msgs))).
  rewrite !map_map. f_equal.
  destruct (group_messages_inv user_id msgs) as (_ & Hall & _).
  revert Hall. generalize (group_messages user_id msgs). intros d.
  induction 1 as [|kt d Hkt _ IH]; [reflexivity|].
  cbn [map]. f_equal; [exact (Hfg kt Hkt)|exact IH].
Qed.

End ConversationFacts.

Module ThreadKeyFacts.
Import GetMessages ThreadSpec Conversation GetMessagesFacts ConversationFacts.

Lemma thread_key_unfold (item_id a b : string) :
  thread_key item_id a b
  = item_id ++ String "#" ((if String.leb a b then a else b)
                           ++ String "#" (if String.leb a b then b else a)).
Proof.
  unfold thread_key, PyList.sorted, PyList.sort_by_key. simpl.
  destruct (String.leb a b); reflexivity.
Qed.

Lemma append_hash_inj (s s' r r' : string) :
  no_hash s = true -> no_hash s' = true ->
  s ++ String "#" r = s' ++ String "#" r' -> s = s' /\ r = r'.
Proof.
  revert s'. induction s as [|c s IH]; intros [|c' s']; simpl; intros Hs Hs' E.
  - injection E as ->. now split.
  - injection E as <- _. discriminate.
  - injection E as -> _. discriminate.
  - injection E as -> E.
    apply andb_true_iff in Hs, Hs'.
    destruct (IH s' (proj2 Hs) (proj2 Hs') E) as [-> ->]. now split.
Qed.

Lemma thread_key_inj (i i' a b a' b' : string) :
  no_hash i = true -> no_hash i' = true ->
  no_hash a = true -> no_hash b = true ->
  no_hash a' = true -> no_hash b' = true ->
  thread_key i a b = thread_key i' a' b' ->
  i = i' /\ ((a = a' /\ b = b') \/ (a = b' /\ b = a')).
Proof.
  intros Hi Hi' Ha Hb Ha' Hb'. rewrite !thread_key_unfold. intros E.
  apply append_hash_inj in E; [|assumption|assumption].
  destruct E as [-> E]. split; [reflexivity|].
  destruct (String.leb a b), (String.leb a' b');
    apply append_hash_inj in E; try assumption; destruct E as [-> ->]; tauto.
Qed.

(** The total of the unread counts is the count over the whole input. *)
Lemma total_unread_count (user_id : string) (msgs : list Message) :
  total_unreadCount (aggregate user_id msgs) = count_unread user_id msgs.
Proof.
  change (total_unreadCount (aggregate user_id msgs))
    with (PyList.sum (map unreadCount (threads (aggregate user_id msgs)))).
  rewrite (entry_measure user_id msgs unreadCount
             (fun k => count_unread user_id (group_of k msgs))).
  - rewrite map_map. unfold count_unread.
    rewrite <- (sum_groups (is_unread_for user_id)
                  (map fst (group_messages user_id msgs)) msgs).
    + now rewrite map_map.
    + apply group_messages_inv.
    + apply group_messages_inv.
  - intros kt (_ & Hmsgs & _ & Hunread). simpl. now rewrite Hunread, Hmsgs.
Qed.

Lemma threads_created_by_first (user_id : string) (msgs : list Message) :
  Forall (fun t => created_by_first user_id msgs (threadId t) t)
    (threads (aggregate user_id msgs)).
Proof.
  apply Forall_forall. intros t Hin.
  apply (Permutation_in _ (threads_perm user_id msgs)) in Hin.
  apply in_map_iff in Hin. destruct Hin as (kt & <- & Hin).
  pose proof (proj1 (Forall_forall _ _) (group_messages_head_inv user_id msgs)
                _ Hin) as (m0 & rest & Hg & Hh).
  destruct (group_messages_inv user_id msgs) as (_ & Hall & _).
  pose proof (proj1 (Forall_forall _ _) Hall _ Hin) as (Hid & _).
  exists m0, rest. simpl. rewrite Hid. split; [exact Hg|exact Hh].
Qed.

Lemma threads_nonempty (user_id : string) (msgs : list Message) :
  Forall (fun t => 1 <= List.length (messages t))
    (threads (aggregate user_id msgs)).
Proof.
  apply Forall_forall. intros t Hin.
  destruct (AggregateFacts.aggregate_thread _ _ _ Hin)
    as (t0 & -> & _ & _ & (Hex & _) & _).
  simpl in *. unfold PyList.sort_by_key.
  rewrite (Permutation_length (PyListFacts.stable_sort_perm _ _ _)).
  destruct (messages t0); [inversion Hex|simpl; lia].
Qed.

Lemma length_le_sum (A : Type) (f : A -> nat) (l : list A) :
  Forall (fun a => 1 <= f a) l -> List.length l <= PyList.sum (map f l).
Proof.
  unfold PyList.sum. induction 1; simpl; lia.
Qed.

End ThreadKeyFacts.

(** X1: the threads of a response have pairwise distinct [threadId]s. *)
Theorem thread_ids_distinct :
  forall (user_id : string) (msgs : list Message),
    NoDup (map GetMessages.threadId
             (GetMessages.threads (GetMessages.aggregate user_id msgs))).
Proof.
  intros user_id msgs.
  apply (Permutation_NoDup
           (Permutation_sym
              (Permutation_map GetMessages.threadId
                 (ConversationFacts.threads_perm user_id msgs)))).
  rewrite map_map, ConversationFacts.entry_threadId.
  apply GetMessagesFacts.group_messages_inv.
Qed.

(** X2: the threads partition the input: no thread is empty, their sizes add
    up to [totalMessages], and there are at most as many threads as
    messages. *)
Theorem threads_partition_input :
  forall (user_id : string) (msgs : list Message),
    let response := GetMessages.aggregate user_id msgs in
    Forall (fun t => GetMessages.messages t <> [])
      (GetMessages.threads response)
    /\ PyList.sum
         (map (fun t => List.length (GetMessages.messages t))
            (GetMessages.threads response))
       = GetMessages.totalMessages response
    /\ GetMessages.totalThreads response <= GetMessages.totalMessages response.
Proof.
  intros user_id msgs response.
  assert (Hsum : PyList.sum
                   (map (fun t => List.length (GetMessages.messages t))
                      (GetMessages.threads response))
                 = List.length msgs).
  { subst response.
    rewrite (ConversationFacts.entry_measure user_id msgs
               (fun t => List.length (GetMessages.messages t))
               (fun k => List.length (ThreadSpec.group_of k msgs))).
    - rewrite <- (ConversationFacts.filter_all _ msgs) at 2.
      rewrite <- (ConversationFacts.sum_groups (fun _ => true)
                    (map fst (GetMessages.group_messages user_id msgs)) msgs);
        try apply GetMessagesFacts.group_messages_inv.
      f_equal. apply map_ext. intros k.
      now rewrite ConversationFacts.filter_all.
    - intros kt (_ & Hmsgs & _). simpl. unfold PyList.sort_by_key.
      rewrite (Permutation_length (PyListFacts.stable_sort_perm _ _ _)).
      now rewrite Hmsgs. }
  split; [|split].
  - eapply Forall_impl; [|apply ThreadKeyFacts.threads_nonempty].
    intros t Ht E. cbv beta in Ht. rewrite E in Ht. simpl in Ht. lia.
  - exact Hsum.
  - change (GetMessages.totalMessages response) with (List.length msgs).
    rewrite <- Hsum. apply ThreadKeyFacts.length_le_sum.
    apply ThreadKeyFacts.threads_nonempty.
Qed.

(** X3: every input message is in the thread that carries its thread id. *)
Theorem every_message_in_its_thread :
  forall (user_id : string) (msgs : list Message),
    Forall
      (fun m =>
         Exists (fun t => GetMessages.threadId t = GetMessages.thread_id m
                          /\ In m (GetMessages.messages t))
           (GetMessages.threads (GetMessages.aggregate user_id msgs)))
      msgs.
Proof.
  intros user_id msgs. apply Forall_forall. intros m Hm.
  destruct (GetMessagesFacts.group_messages_inv user_id msgs)
    as (_ & Hall & Hkeys).
  specialize (Hkeys m Hm). apply in_map_iff in Hkeys.
  destruct Hkeys as (kt & Hk & Hin).
  pose proof (proj1 (Forall_forall _ _) Hall _ Hin) as (Hid & Hmsgs & _).
  apply Exists_exists. exists (GetMessages.sort_thread (snd kt)). split.
  - apply (Permutation_in _
             (Permutation_sym (ConversationFacts.threads_perm user_id msgs))).
    now apply (in_map (fun kt => GetMessages.sort_thread (snd kt))).
  - simpl. split; [congruence|].
    apply (Permutation_in _
             (Permutation_sym (PyListFacts.stable_sort_perm _ _ _))).
    rewrite Hmsgs. unfold ThreadSpec.group_of. apply filter_In.
    split; [exact Hm|]. rewrite Hk. apply String.eqb_refl.
Qed.

(** X4: the [unreadCount] of a response is the number of input messages sent
    to the requesting user and not read; one more input message adds one
    exactly when it is such a message. *)
Theorem total_unread_counts_whole_input :
  forall (user_id : string) (msgs : list Message) (m : Message),
    GetMessages.total_unreadCount (GetMessages.aggregate user_id msgs)
    = ThreadSpec.count_unread user_id msgs
    /\ GetMessages.total_unreadCount
         (GetMessages.aggregate user_id (msgs ++ [m]))
       = GetMessages.total_unreadCount (GetMessages.aggregate user_id msgs)
         + (if ThreadSpec.is_unread_for user_id m then 1 else 0).
Proof.
  intros user_id msgs m. rewrite !ThreadKeyFacts.total_unread_count.
  split; [reflexivity|]. rewrite GetMessagesFacts.count_unread_snoc.
  destruct (ThreadSpec.is_unread_for user_id m); lia.
Qed.

(** X5: the item and the other user shown on a thread are those of the first
    input message of the conversation: the sender of that message, unless
    the requesting user sent it, in which case its recipient. *)
Theorem thread_header_from_first_message :
  forall (user_id : string) (msgs : list Message),
    Forall
      (fun t => Conversation.created_by_first user_id msgs
                  (GetMessages.threadId t) t)
      (GetMessages.threads (GetMessages.aggregate user_id msgs)).
Proof. exact ThreadKeyFacts.threads_created_by_first. Qed.

(** X6: when every input message involves the requesting user and none is
    sent to its own sender, the other user of a thread is not the requesting
    user, and the thread id is the key of the thread's item, the requesting
    user and that other user. *)
Theorem other_user_is_counterpart :
  forall (user_id : string) (msgs : list Message),
    Forall (Conversation.involves user_id) msgs ->
    Forall (fun m => senderUserId m <> recipientUserId m) msgs ->
    Forall
      (fun t =>
         GetMessages.otherUserId t <> user_id
         /\ GetMessages.threadId t
            = GetMessages.thread_key (GetMessages.t_itemId t) user_id
                (GetMessages.otherUserId t))
      (GetMessages.threads (GetMessages.aggregate user_id msgs)).
Proof.
  intros user_id msgs Hinv Hdiff.
  eapply Forall_impl; [|apply ThreadKeyFacts.threads_created_by_first].
  intros t (m0 & rest & Hg & Hitem & _ & _ & Hother & _).
  assert (Hin : In m0 (ThreadSpec.group_of (GetMessages.threadId t) msgs))
    by (rewrite Hg; now left).
  apply filter_In in Hin. destruct Hin as [Hin Hkey].
  apply String.eqb_eq in Hkey.
  pose proof (proj1 (Forall_forall _ _) Hinv _ Hin) as Hm0.
  pose proof (proj1 (Forall_forall _ _) Hdiff _ Hin) as Hne.
  rewrite Hother, Hitem, <- Hkey. unfold GetMessages.thread_id.
  destruct (String.eqb_spec (senderUserId m0) user_id) as [E|E].
  - split; [congruence|]. now rewrite E.
  - destruct Hm0 as [Hs|Hr]; [contradiction|].
    split; [exact E|]. rewrite Hr. apply AggregateFacts.thread_key_swap.
Qed.

Lemma other_user_is_counterpart_witness :
  Forall
    (fun t =>
       GetMessages.otherUserId t <> "alice"
       /\ GetMessages.threadId t
          = GetMessages.thread_key (GetMessages.t_itemId t) "alice"
              (GetMessages.otherUserId t))
    (GetMessages.threads
       (GetMessages.aggregate "alice"
          [sample_message "m1" "I1" "bob" "alice" "2026-01-31T18:00:00Z";
           sample_message "m2" "I1" "alice" "bob" "2026-01-31T18:05:00Z"])).
Proof.
  apply other_user_is_counterpart.
  - constructor; [right; reflexivity|].
    constructor; [left; reflexivity|constructor].
  - constructor; [simpl; discriminate|].
    constructor; [simpl; discriminate|constructor].
Defined.

(** X7: for ids without [#], two thread keys are equal exactly when the item
    is the same and the two users are the same, in either order. *)
Theorem thread_key_same_conversation :
  forall (i i' a b a' b' : string),
    Conversation.no_hash i = true -> Conversation.no_hash i' = true ->
    Conversation.no_hash a = true -> Conversation.no_hash b = true ->
    Conversation.no_hash a' = true -> Conversation.no_hash b' = true ->
    (GetMessages.thread_key i a b = GetMessages.thread_key i' a' b'
     <-> i = i' /\ ((a = a' /\ b = b') \/ (a = b' /\ b = a'))).
Proof.
  intros i i' a b a' b' Hi Hi' Ha Hb Ha' Hb'. split.
  - now apply ThreadKeyFacts.thread_key_inj.
  - intros [-> [[-> ->]|[-> ->]]]; [reflexivity|].
    apply AggregateFacts.thread_key_swap.
Qed.

Lemma thread_key_same_conversation_witness :
  GetMessages.thread_key "I1" "alice" "bob"
  = GetMessages.thread_key "I1" "bob" "alice"
  <-> "I1" = "I1"
      /\ (("alice" = "bob" /\ "bob" = "alice")
          \/ ("alice" = "alice" /\ "bob" = "bob")).
Proof.
  apply thread_key_same_conversation; reflexivity.
Defined.

(* ===================================================================== *)
(** * Further properties of the handlers *)
(* ===================================================================== *)

Module OutcomeFacts.
Import Store Effects Validation Outcome EffectsFacts SendReplyFacts.






Lemma check_required_run (fields : list string) (b : Body) (w : World) :
  check_required fields b w
  = match first_missing fields b with
    | Some f => (inl (ValueError ("Missing required field: " ++ f)), w)
    | None => (inr tt, w)
    end.
Proof.
  unfold first_missing. induction fields as [|f fields IH]; simpl;
    [reflexivity|].
  unfold present. destruct (body_get f b) as [v|]; simpl; [|reflexivity].
  destruct (truthy v); simpl; [exact IH|reflexivity].
Qed.







(** A failing run of the reply handler leaves the messages table as it
    was. *)
Lemma reply_failure_keeps_table (rt : Runtime) (event : Event) (w : World)
  (e : PyExn) :
  fst (SendReply.send_reply_message_in_existing_conversation_thread rt event w)
  = inl e ->
  messages_table
    (snd (SendReply.send_reply_message_in_existing_conversation_thread rt
            event w))
  = messages_table w.
Proof.
  intros He.
  assert (H : writes_once_at_end (validated rt)
                (SendReply.send_reply_message_in_existing_conversation_thread
                   rt event)).
  { unfold SendReply.send_reply_message_in_existing_conversation_thread.
    apply writes_once_try_except; [apply on_error_raises|].
    apply writes_once_resolve_and_send. }
  destruct (H w) as (_ & _ & _ & ops & _ & Hout).
  rewrite He in Hout. apply Hout.
Qed.

(** In a world without faults, a complete reply to somebody else whose
    context the chain finds is written with that context. *)
Lemma reply_resolves (rt : Runtime)
  (user_id user_email item_id recipient_user_id message_text : string)
  (nm : option string) (w : World) (m : Message) :
  no_faults w ->
  item_id <> EmptyString -> recipient_user_id <> EmptyString ->
  message_text <> EmptyString ->
  String.length message_text <= 1000 -> recipient_user_id <> user_id ->
  chain_result item_id user_id recipient_user_id w = Some m ->
  let out :=
    SendReply.send_reply_message_in_existing_conversation_thread rt
      (request user_id user_email nm item_id recipient_user_id message_text)
      w in
  fst out = inr {| SendReply.messageId := uuid4 rt;
                   SendReply.sentAt := utcnow rt |}
  /\ messages_table (snd out)
     = (messages_table w
        ++ [SendReply.message_record rt item_id recipient_user_id user_id
              user_email
              (display_name (mkClaims (Some user_id) (Some user_email) nm)
                 user_email)
              message_text (SendReply.PriorMessage m)])%list.
Proof.
  intros Hw Hi Hr Hm Hlen Hne Hchain out.
  destruct (find_existing_message_found _ _ _ _ _ Hw Hchain)
    as (w1 & Hrun & Hreads & Hw1).
  subst out. unfold request. rewrite HandlerFacts.send_reply_run.
  unfold try_except, bind.
  rewrite validate_passes by assumption.
  rewrite Hrun. unfold SendReply.store_reply, bind, put_item.
  rewrite (service_answers _ _ _ _ _ Hw1). simpl.
  split; [reflexivity|].
  destruct Hreads as (Htable & _). now rewrite Htable.
Qed.

End OutcomeFacts.

Module ContactFacts.
Import Store Effects Validation Outcome SendReplyFacts.

Lemma length_log (c : Call) (w : World) :
  List.length (calls (log c w)) = List.length (calls w) + 1.
Proof. simpl. now rewrite length_app. Qed.

(** The first contact in a world without faults: the item is read, the row
    written. *)
Lemma contact_run (rt : Runtime)
  (user_id user_email item_id message_text : string)
  (nm r : option string) (item : Item) (w : World) :
  no_faults w ->
  item_id <> EmptyString -> message_text <> EmptyString ->
  String.length message_text <= 1000 ->
  find (fun it => String.eqb (item_row_id it) item_id) (items_table w)
  = Some item ->
  userEmail item <> user_email ->
  let row :=
    SendContact.message_record rt item_id item user_id user_email
      (display_name (mkClaims (Some user_id) (Some user_email) nm) user_email)
      message_text in
  SendContact.lambda_handler rt
    (mkEvent (Some (mkClaims (Some user_id) (Some user_email) nm))
       (mkBody (Some item_id) r (Some message_text))) w
  = (inr {| SendContact.messageId := uuid4 rt;
            SendContact.details_itemId := item_id;
            SendContact.details_recipientEmail := userEmail item |},
     append_row row (log (PutItem row) (log (GetItem item_id) w))).
Proof.
  intros Hw Hi Hm Hlen Hitem Hmail row. subst row.
  unfold SendContact.lambda_handler, SendContact.contact, try_except, bind.
  simpl. unfold truthy.
  apply String.eqb_neq in Hi, Hm, Hmail. rewrite Hi, Hm. simpl.
  unfold check_length.
  destruct (Nat.ltb_spec 1000 (String.length message_text)); [lia|].
  simpl. unfold get_item. rewrite (service_answers _ _ _ _ _ Hw).
  rewrite Hitem, Hmail. simpl. unfold put_item.
  rewrite (service_answers _ _ _ _ _ (no_faults_log _ _ Hw)).
  reflexivity.
Qed.

End ContactFacts.

(** X8: a request without claims, without the [sub] claim or without the
    [email] claim is answered "Unauthorized: Valid authentication required"
    by each of the three handlers, whatever the body and the state, and no
    service call is made. *)
Theorem requests_without_identity_are_unauthorized :
  forall (rt : Runtime) (event : Event) (w : Store.World),
    Outcome.identity_missing event ->
    GetMessagesHandler.lambda_handler event w = (inl Outcome.unauthorized, w)
    /\ SendReply.send_reply_message_in_existing_conversation_thread rt event w
       = (inl Outcome.unauthorized, w)
    /\ SendContact.lambda_handler rt event w = (inl Outcome.unauthorized, w).
Proof.
  intros rt event w Hid. unfold Outcome.identity_missing in Hid.
  unfold GetMessagesHandler.lambda_handler,
    SendReply.send_reply_message_in_existing_conversation_thread,
    SendReply.resolve_and_send, SendContact.lambda_handler,
    SendContact.contact, Store.try_except, Store.bind, Store.get_claims.
  destruct (claims event) as [c|]; simpl; [|repeat split].
  destruct (sub c) as [user_id|]; simpl; [|repeat split].
  destruct Hid as [Hid|Hid]; [discriminate|].
  rewrite Hid. simpl. repeat split.
Qed.

Lemma requests_without_identity_witness :
  GetMessagesHandler.lambda_handler
    (mkEvent None (mkBody (Some "I1") (Some "bob") (Some "hello")))
    fresh_thread_world
  = (inl Outcome.unauthorized, fresh_thread_world)
  /\ SendReply.send_reply_message_in_existing_conversation_thread
       sample_runtime
       (mkEvent None (mkBody (Some "I1") (Some "bob") (Some "hello")))
       fresh_thread_world
     = (inl Outcome.unauthorized, fresh_thread_world)
  /\ SendContact.lambda_handler sample_runtime
       (mkEvent None (mkBody (Some "I1") (Some "bob") (Some "hello")))
       fresh_thread_world
     = (inl Outcome.unauthorized, fresh_thread_world).
Proof.
  apply requests_without_identity_are_unauthorized. exact I.
Defined.




(** X11: a reply whose body lacks one of [itemId], [recipientUserId],
    [message], or has it empty, is answered "Missing required field: "
    followed by the first such field in that order, and no service call is
    made. *)
Theorem reply_missing_field_rejected :
  forall (rt : Runtime) (w : Store.World) (user_id user_email : string)
         (nm : option string) (b : Body) (f : string),
    Outcome.first_missing ["itemId"; "recipientUserId"; "message"] b = Some f ->
    SendReply.send_reply_message_in_existing_conversation_thread rt
      (mkEvent (Some (mkClaims (Some user_id) (Some user_email) nm)) b) w
    = (inl (Store.Exception ("Missing required field: " ++ f)), w).
Proof.
  intros rt w user_id user_email nm b f Hf.
  rewrite HandlerFacts.send_reply_run.
  unfold Store.try_except, Store.bind, SendReply.validate, Store.bind.
  rewrite OutcomeFacts.check_required_run, Hf. reflexivity.
Qed.

Lemma reply_missing_field_witness :
  SendReply.send_reply_message_in_existing_conversation_thread sample_runtime
    (mkEvent (Some (mkClaims (Some "alice") (Some "alice@example.com") None))
       (mkBody (Some "I1") (Some EmptyString) None))
    fresh_thread_world
  = (inl (Store.Exception ("Missing required field: " ++ "recipientUserId")),
     fresh_thread_world).
Proof.
  apply reply_missing_field_rejected. reflexivity.
Defined.

(** X12: a first contact whose body lacks [itemId] or [message], or has it
    empty, is answered "Validation error: Missing required field: " followed
    by the first such field, and no service call is made. *)
Theorem contact_missing_field_rejected :
  forall (rt : Runtime) (w : Store.World) (user_id user_email : string)
         (nm : option string) (b : Body) (f : string),
    Outcome.first_missing ["itemId"; "message"] b = Some f ->
    SendContact.lambda_handler rt
      (mkEvent (Some (mkClaims (Some user_id) (Some user_email) nm)) b) w
    = (inl (Store.Exception
              ("Validation error: " ++ "Missing required field: " ++ f)), w).
Proof.
  intros rt w user_id user_email nm b f Hf.
  cbv beta iota zeta
    delta [SendContact.lambda_handler SendContact.contact Store.try_except
           Store.bind Store.get_claims Store.subscript Store.ret
           claims body sub email].
  rewrite OutcomeFacts.check_required_run, Hf. reflexivity.
Qed.

Lemma contact_missing_field_witness :
  SendContact.lambda_handler sample_runtime
    (mkEvent (Some (mkClaims (Some "alice") (Some "alice@example.com") None))
       (mkBody (Some "I1") None None))
    own_item_world
  = (inl (Store.Exception
            ("Validation error: " ++ "Missing required field: " ++ "message")),
     own_item_world).
Proof.
  apply contact_missing_field_rejected. reflexivity.
Defined.



(** X14: in a state without faults, a complete reply to somebody else of at
    most 1000 characters (1000 included) is decided by the two index queries
    and the scan of ten rows: when one of them finds a prior message, the
    reply is stored with the context of the first hit; when none does, the
    handler fails with the internal error and stores nothing. *)
Theorem reply_outcome_without_faults :
  forall (rt : Runtime) (w : Store.World) (user_id user_email : string)
         (nm : option string) (item_id recipient_user_id message_text : string),
    Effects.no_faults w ->
    item_id <> EmptyString -> recipient_user_id <> EmptyString ->
    message_text <> EmptyString ->
    String.length message_text <= 1000 -> recipient_user_id <> user_id ->
    let out :=
      SendReply.send_reply_message_in_existing_conversation_thread rt
        (request user_id user_email nm item_id recipient_user_id message_text)
        w in
    match Effects.chain_result item_id user_id recipient_user_id w with
    | Some m =>
        fst out = inr {| SendReply.messageId := uuid4 rt;
                         SendReply.sentAt := utcnow rt |}
        /\ Store.messages_table (snd out)
           = (Store.messages_table w
              ++ [SendReply.message_record rt item_id recipient_user_id
                    user_id user_email
                    (Validation.display_name
                       (mkClaims (Some user_id) (Some user_email) nm)
                       user_email)
                    message_text (SendReply.PriorMessage m)])%list
    | None =>
        fst out
        = inl (Store.Exception
                 "Internal server error: name 'dynamodb' is not defined")
        /\ Store.messages_table (snd out) = Store.messages_table w
    end.
Proof.
  intros rt w user_id user_email nm item_id recipient_user_id message_text
    Hw Hi Hr Hm Hlen Hne out.
  destruct (Effects.chain_result item_id user_id recipient_user_id w)
    as [m|] eqn:Hchain.
  - now apply OutcomeFacts.reply_resolves.
  - assert (Hfail : fst out
                    = inl (Store.Exception
                             "Internal server error: name 'dynamodb' is not defined"))
      by now apply HandlerFacts.resolver_total_miss_internal_error.
    split; [exact Hfail|].
    now apply OutcomeFacts.reply_failure_keeps_table with (e := Store.Exception
      "Internal server error: name 'dynamodb' is not defined").
Qed.

Lemma reply_outcome_without_faults_witness :
  fst (SendReply.send_reply_message_in_existing_conversation_thread
         sample_runtime
         (request "alice" "alice@example.com" None "I1" "bob" "Yes, it is.")
         crowded_world)
  = inl (Store.Exception
           "Internal server error: name 'dynamodb' is not defined")
  /\ Store.messages_table
       (snd (SendReply.send_reply_message_in_existing_conversation_thread
               sample_runtime
               (request "alice" "alice@example.com" None "I1" "bob"
                  "Yes, it is.")
               crowded_world))
     = Store.messages_table crowded_world.
Proof.
  apply (reply_outcome_without_faults sample_runtime crowded_world
           "alice" "alice@example.com" None "I1" "bob" "Yes, it is.").
  - intros n. reflexivity.
  - discriminate.
  - discriminate.
  - discriminate.
  - simpl. lia.
  - discriminate.
Defined.

(** X15: the prior message the fallback chain settles on comes from the
    index or from the first ten rows of the table, is about the requested
    item, and is between the two users of the request; the recipient's name
    and e-mail address of the reply are therefore taken from that message
    and never the placeholders. *)
Theorem resolved_context_is_same_conversation :
  forall (item_id user_id recipient_user_id : string) (w : Store.World)
         (m : Message),
    Effects.chain_result item_id user_id recipient_user_id w = Some m ->
    (In m (Store.recipient_index w)
     \/ In m (firstn SendReply.scan_limit (Store.messages_table w)))
    /\ itemId m = item_id
    /\ ((senderUserId m = recipient_user_id /\ recipientUserId m = user_id)
        \/ (senderUserId m = user_id /\ recipientUserId m = recipient_user_id))
    /\ SendReply.recipient_details (SendReply.PriorMessage m) recipient_user_id
       = (if String.eqb (senderUserId m) recipient_user_id
          then (senderName m, senderEmail m)
          else (recipientName m, recipientEmail m)).
Proof.
  intros item_id user_id recipient_user_id w m. unfold Effects.chain_result.
  assert (Hdetails :
            (senderUserId m = recipient_user_id /\ recipientUserId m = user_id)
            \/ (senderUserId m = user_id
                /\ recipientUserId m = recipient_user_id) ->
            SendReply.recipient_details (SendReply.PriorMessage m)
              recipient_user_id
            = (if String.eqb (senderUserId m) recipient_user_id
               then (senderName m, senderEmail m)
               else (recipientName m, recipientEmail m))).
  { intros Hpair. simpl.
    destruct (String.eqb_spec (senderUserId m) recipient_user_id) as [E|E];
      [reflexivity|].
    destruct Hpair as [[Hs _]|[_ Hr]]; [contradiction|].
    rewrite Hr, String.eqb_refl. reflexivity. }
  destruct (find (SendReply.match_received item_id recipient_user_id)
              (Store.index_rows user_id w)) as [m1|] eqn:E1.
  - intros [= ->]. apply find_some in E1. destruct E1 as [Hin Hmatch].
    apply filter_In in Hin. destruct Hin as [Hin Hrcpt].
    apply andb_true_iff in Hmatch. destruct Hmatch as [Hitem Hsender].
    apply String.eqb_eq in Hrcpt, Hitem, Hsender.
    split; [now left|]. split; [exact Hitem|].
    split; [now left|]. apply Hdetails. now left.
  - destruct (find (SendReply.match_sent item_id user_id)
                (Store.index_rows recipient_user_id w)) as [m2|] eqn:E2.
    + intros [= ->]. apply find_some in E2. destruct E2 as [Hin Hmatch].
      apply filter_In in Hin. destruct Hin as [Hin Hrcpt].
      apply andb_true_iff in Hmatch. destruct Hmatch as [Hitem Hsender].
      apply String.eqb_eq in Hrcpt, Hitem, Hsender.
      split; [now left|]. split; [exact Hitem|].
      split; [now right|]. apply Hdetails. now right.
    + intros E3. apply find_some in E3. destruct E3 as [Hin Hmatch].
      apply andb_true_iff in Hmatch. destruct Hmatch as [Hitem Hpair].
      apply String.eqb_eq in Hitem.
      assert (Hp : (senderUserId m = recipient_user_id
                    /\ recipientUserId m = user_id)
                   \/ (senderUserId m = user_id
                       /\ recipientUserId m = recipient_user_id)).
      { apply orb_true_iff in Hpair.
        destruct Hpair as [H|H]; apply andb_true_iff in H;
          destruct H as [H1 H2]; apply String.eqb_eq in H1, H2; tauto. }
      split; [now right|]. split; [exact Hitem|].
      split; [exact Hp|]. now apply Hdetails.
Qed.

Lemma resolved_context_witness :
  let m := sample_message "m1" "I1" "bob" "alice" "2026-01-31T18:00:00Z" in
  (In m (Store.recipient_index fresh_thread_world)
   \/ In m (firstn SendReply.scan_limit
              (Store.messages_table fresh_thread_world)))
  /\ itemId m = "I1"
  /\ ((senderUserId m = "bob" /\ recipientUserId m = "alice")
      \/ (senderUserId m = "alice" /\ recipientUserId m = "bob"))
  /\ SendReply.recipient_details (SendReply.PriorMessage m) "bob"
     = (if String.eqb (senderUserId m) "bob"
        then (senderName m, senderEmail m)
        else (recipientName m, recipientEmail m)).
Proof.
  apply (resolved_context_is_same_conversation "I1" "alice" "bob"
           fresh_thread_world). reflexivity.
Defined.

(** X16: the chain stops at the first hit: when the first index query shows
    a message of the counterpart about the item, the reply is stored with
    its context and the only service calls are that query and the write; no
    second query and no scan is made. *)
Theorem first_query_hit_stops_chain :
  forall (rt : Runtime) (w : Store.World) (user_id user_email : string)
         (nm : option string) (item_id recipient_user_id message_text : string)
         (m : Message),
    Effects.no_faults w ->
    item_id <> EmptyString -> recipient_user_id <> EmptyString ->
    message_text <> EmptyString ->
    String.length message_text <= 1000 -> recipient_user_id <> user_id ->
    find (SendReply.match_received item_id recipient_user_id)
      (Store.index_rows user_id w) = Some m ->
    let row :=
      SendReply.message_record rt item_id recipient_user_id user_id user_email
        (Validation.display_name
           (mkClaims (Some user_id) (Some user_email) nm) user_email)
        message_text (SendReply.PriorMessage m) in
    SendReply.send_reply_message_in_existing_conversation_thread rt
      (request user_id user_email nm item_id recipient_user_id message_text) w
    = (inr {| SendReply.messageId := uuid4 rt;
              SendReply.sentAt := utcnow rt |},
       Store.append_row row
         (Store.log (Store.PutItem row)
            (Store.log (Store.Query user_id true) w))).
Proof.
  intros rt w user_id user_email nm item_id recipient_user_id message_text m
    Hw Hi Hr Hm Hlen Hne Hfind row. subst row.
  unfold request. rewrite HandlerFacts.send_reply_run.
  unfold Store.try_except, Store.bind.
  rewrite SendReplyFacts.validate_passes by assumption.
  unfold SendReply.find_existing_message, Store.bind, SendReply.step1,
    Store.bind, Store.query_recipient_index.
  rewrite (SendReplyFacts.service_answers _ _ _ _ _ Hw).
  cbn -[SendReply.message_record Validation.display_name].
  rewrite Hfind.
  cbn -[SendReply.message_record Validation.display_name].
  unfold Store.put_item, Store.bind.
  rewrite (SendReplyFacts.service_answers _ _ _ _ _
             (SendReplyFacts.no_faults_log _ _ Hw)).
  reflexivity.
Qed.

Lemma first_query_hit_witness :
  let w := Store.mkWorld
             [sample_message "m1" "I1" "bob" "alice" "2026-01-31T18:00:00Z"]
             [sample_message "m1" "I1" "bob" "alice" "2026-01-31T18:00:00Z"]
             [] (fun _ => None) [] in
  let row :=
    SendReply.message_record sample_runtime "I1" "bob" "alice"
      "alice@example.com"
      (Validation.display_name
         (mkClaims (Some "alice") (Some "alice@example.com") None)
         "alice@example.com")
      "Yes, it is."
      (SendReply.PriorMessage
         (sample_message "m1" "I1" "bob" "alice" "2026-01-31T18:00:00Z")) in
  SendReply.send_reply_message_in_existing_conversation_thread sample_runtime
    (request "alice" "alice@example.com" None "I1" "bob" "Yes, it is.") w
  = (inr {| SendReply.messageId := uuid4 sample_runtime;
            SendReply.sentAt := utcnow sample_runtime |},
     Store.append_row row
       (Store.log (Store.PutItem row)
          (Store.log (Store.Query "alice" true) w))).
Proof.
  cbv zeta. apply first_query_hit_stops_chain.
  - intros n. reflexivity.
  - discriminate.
  - discriminate.
  - discriminate.
  - simpl. lia.
  - discriminate.
  - reflexivity.
Defined.

(** X17: when the first index query fails with a service error, a valid
    reply is answered "Database error: " followed by the message of that
    error; the lookups stop there and nothing is written. *)
Theorem reply_reports_service_error :
  forall (rt : Runtime) (w : Store.World) (user_id user_email : string)
         (nm : option string) (item_id recipient_user_id message_text : string)
         (code msg : string),
    item_id <> EmptyString -> recipient_user_id <> EmptyString ->
    message_text <> EmptyString ->
    String.length message_text <= 1000 -> recipient_user_id <> user_id ->
    Store.faults w (List.length (Store.calls w)) = Some (code, msg) ->
    SendReply.send_reply_message_in_existing_conversation_thread rt
      (request user_id user_email nm item_id recipient_user_id message_text) w
    = (inl (Store.Exception ("Database error: " ++ msg)),
       Store.log (Store.Query user_id true) w).
Proof.
  intros rt w user_id user_email nm item_id recipient_user_id message_text
    code msg Hi Hr Hm Hlen Hne Hfault.
  unfold request. rewrite HandlerFacts.send_reply_run.
  unfold Store.try_except, Store.bind.
  rewrite SendReplyFacts.validate_passes by assumption.
  unfold SendReply.find_existing_message, Store.bind, SendReply.step1,
    Store.bind, Store.query_recipient_index, Store.service.
  rewrite Hfault. reflexivity.
Qed.

Lemma reply_reports_service_error_witness :
  let w := Store.mkWorld [] [] []
             (fun _ => Some ("ProvisionedThroughputExceededException",
                             "Rate exceeded")) [] in
  SendReply.send_reply_message_in_existing_conversation_thread sample_runtime
    (request "alice" "alice@example.com" None "I1" "bob" "Yes, it is.") w
  = (inl (Store.Exception ("Database error: " ++ "Rate exceeded")),
     Store.log (Store.Query "alice" true) w).
Proof.
  cbv zeta.
  apply (reply_reports_service_error sample_runtime _ "alice"
           "alice@example.com" None "I1" "bob" "Yes, it is."
           "ProvisionedThroughputExceededException" "Rate exceeded").
  - discriminate.
  - discriminate.
  - discriminate.
  - simpl. lia.
  - discriminate.
  - reflexivity.
Defined.


(** X19: a first contact about an item that is not in the items table is
    answered "Validation error: Item not found"; the only service call is
    the read of the item and nothing is written. *)
Theorem contact_unknown_item_rejected :
  forall (rt : Runtime) (w : Store.World) (user_id user_email : string)
         (nm r : option string) (item_id message_text : string),
    item_id <> EmptyString -> message_text <> EmptyString ->
    String.length message_text <= 1000 ->
    Store.faults w (List.length (Store.calls w)) = None ->
    find (fun it => String.eqb (item_row_id it) item_id) (Store.items_table w)
    = None ->
    SendContact.lambda_handler rt
      (mkEvent (Some (mkClaims (Some user_id) (Some user_email) nm))
         (mkBody (Some item_id) r (Some message_text))) w
    = (inl (Store.Exception "Validation error: Item not found"),
       Store.log (Store.GetItem item_id) w).
Proof.
  intros rt w user_id user_email nm r item_id message_text Hi Hm Hlen Hfault
    Hfind.
  unfold SendContact.lambda_handler, SendContact.contact, Store.try_except,
    Store.bind. simpl. unfold Validation.truthy.
  apply String.eqb_neq in Hi, Hm. rewrite Hi, Hm. simpl.
  unfold Validation.check_length.
  destruct (Nat.ltb_spec 1000 (String.length message_text)); [lia|].
  simpl. unfold Store.get_item, Store.service. rewrite Hfault, Hfind.
  reflexivity.
Qed.

Lemma contact_unknown_item_witness :
  SendContact.lambda_handler sample_runtime
    (mkEvent (Some (mkClaims (Some "bob") (Some "bob@example.com") None))
       (mkBody (Some "I7") None (Some "Is this yours?"))) own_item_world
  = (inl (Store.Exception "Validation error: Item not found"),
     Store.log (Store.GetItem "I7") own_item_world).
Proof.
  apply contact_unknown_item_rejected.
  - discriminate.
  - discriminate.
  - simpl. lia.
  - reflexivity.
  - reflexivity.
Defined.

(** X20: a first contact by a user whose e-mail address is the one recorded
    on the item is answered "Validation error: You cannot contact yourself",
    whatever the user ids; the only service call is the read of the item
    and nothing is written. *)
Theorem contact_same_email_rejected :
  forall (rt : Runtime) (w : Store.World) (user_id user_email : string)
         (nm r : option string) (item_id message_text : string) (item : Item),
    item_id <> EmptyString -> message_text <> EmptyString ->
    String.length message_text <= 1000 ->
    Store.faults w (List.length (Store.calls w)) = None ->
    find (fun it => String.eqb (item_row_id it) item_id) (Store.items_table w)
    = Some item ->
    userEmail item = user_email ->
    SendContact.lambda_handler rt
      (mkEvent (Some (mkClaims (Some user_id) (Some user_email) nm))
         (mkBody (Some item_id) r (Some message_text))) w
    = (inl (Store.Exception "Validation error: You cannot contact yourself"),
       Store.log (Store.GetItem item_id) w).
Proof.
  intros rt w user_id user_email nm r item_id message_text item Hi Hm Hlen
    Hfault Hfind Hmail.
  unfold SendContact.lambda_handler, SendContact.contact, Store.try_except,
    Store.bind. simpl. unfold Validation.truthy.
  apply String.eqb_neq in Hi, Hm. rewrite Hi, Hm. simpl.
  unfold Validation.check_length.
  destruct (Nat.ltb_spec 1000 (String.length message_text)); [lia|].
  simpl. unfold Store.get_item, Store.service. rewrite Hfault, Hfind.
  simpl. rewrite Hmail, String.eqb_refl. reflexivity.
Qed.

Lemma contact_same_email_witness :
  SendContact.lambda_handler sample_runtime
    (mkEvent
       (Some (mkClaims (Some "u-carol") (Some "alice@old.example.com") None))
       (mkBody (Some "I1") None (Some "Is this yours?"))) own_item_world
  = (inl (Store.Exception "Validation error: You cannot contact yourself"),
     Store.log (Store.GetItem "I1") own_item_world).
Proof.
  apply (contact_same_email_rejected sample_runtime own_item_world "u-carol"
           "alice@old.example.com" None None "I1" "Is this yours?"
           (mkItem "I1" "Blue backpack" "lost" "u-alice"
              "alice@old.example.com" "Alice")).
  - discriminate.
  - discriminate.
  - simpl. lia.
  - reflexivity.
  - reflexivity.
  - reflexivity.
Defined.

(** X21: in a state without faults, a first contact with an item id, a
    message of at most 1000 characters and an e-mail address other than the
    item's succeeds: the item is read once, and one unread row is appended,
    addressed to the item's [userId], with the item's title and status and
    the sender's identity from the token. *)
Theorem contact_stores_message_for_owner :
  forall (rt : Runtime) (w : Store.World) (user_id user_email : string)
         (nm r : option string) (item_id message_text : string) (item : Item),
    Effects.no_faults w ->
    item_id <> EmptyString -> message_text <> EmptyString ->
    String.length message_text <= 1000 ->
    find (fun it => String.eqb (item_row_id it) item_id) (Store.items_table w)
    = Some item ->
    userEmail item <> user_email ->
    let row :=
      {| id := uuid4 rt;
         itemId := item_id;
         itemTitle := title item;
         itemStatus := status item;
         recipientUserId := userId item;
         recipientEmail := userEmail item;
         recipientName := userName item;
         senderUserId := user_id;
         senderEmail := user_email;
         senderName := match nm with
                       | Some n => n
                       | None => PyStr.before_at user_email
                       end;
         message := message_text;
         createdAt := utcnow rt;
         read := false |} in
    SendContact.lambda_handler rt
      (mkEvent (Some (mkClaims (Some user_id) (Some user_email) nm))
         (mkBody (Some item_id) r (Some message_text))) w
    = (inr {| SendContact.messageId := uuid4 rt;
              SendContact.details_itemId := item_id;
              SendContact.details_recipientEmail := userEmail item |},
       Store.append_row row
         (Store.log (Store.PutItem row) (Store.log (Store.GetItem item_id) w))).
Proof.
  intros rt w user_id user_email nm r item_id message_text item Hw Hi Hm Hlen
    Hfind Hmail row.
  now apply ContactFacts.contact_run.
Qed.

Lemma contact_stores_message_witness :
  let row :=
    {| id := uuid4 sample_runtime;
       itemId := "I1";
       itemTitle := "Blue backpack";
       itemStatus := "lost";
       recipientUserId := "u-alice";
       recipientEmail := "alice@old.example.com";
       recipientName := "Alice";
       senderUserId := "u-bob";
       senderEmail := "bob@example.com";
       senderName := "bob";
       message := "I think I found it.";
       createdAt := utcnow sample_runtime;
       read := false |} in
  SendContact.lambda_handler sample_runtime
    (mkEvent (Some (mkClaims (Some "u-bob") (Some "bob@example.com") None))
       (mkBody (Some "I1") None (Some "I think I found it."))) own_item_world
  = (inr {| SendContact.messageId := uuid4 sample_runtime;
            SendContact.details_itemId := "I1";
            SendContact.details_recipientEmail := "alice@old.example.com" |},
     Store.append_row row
       (Store.log (Store.PutItem row)
          (Store.log (Store.GetItem "I1") own_item_world))).
Proof.
  cbv zeta.
  apply (contact_stores_message_for_owner sample_runtime own_item_world
           "u-bob" "bob@example.com" None None "I1" "I think I found it."
           (mkItem "I1" "Blue backpack" "lost" "u-alice"
              "alice@old.example.com" "Alice")).
  - intros n. reflexivity.
  - discriminate.
  - discriminate.
  - simpl. lia.
  - reflexivity.
  - discriminate.
Defined.

(** X22: when the write of a first contact fails with a service error, the
    handler still returns its success response although no row has been
    stored. *)
Theorem contact_reports_success_when_write_fails :
  forall (rt : Runtime) (w : Store.World) (user_id user_email : string)
         (nm r : option string) (item_id message_text : string) (item : Item)
         (code msg : string),
    item_id <> EmptyString -> message_text <> EmptyString ->
    String.length message_text <= 1000 ->
    Store.faults w (List.length (Store.calls w)) = None ->
    Store.faults w (List.length (Store.calls w) + 1) = Some (code, msg) ->
    find (fun it => String.eqb (item_row_id it) item_id) (Store.items_table w)
    = Some item ->
    userEmail item <> user_email ->
    let out :=
      SendContact.lambda_handler rt
        (mkEvent (Some (mkClaims (Some user_id) (Some user_email) nm))
           (mkBody (Some item_id) r (Some message_text))) w in
    fst out = inr {| SendContact.messageId := uuid4 rt;
                     SendContact.details_itemId := item_id;
                     SendContact.details_recipientEmail := userEmail item |}
    /\ Store.messages_table (snd out) = Store.messages_table w.
Proof.
  intros rt w user_id user_email nm r item_id message_text item code msg
    Hi Hm Hlen Hfault1 Hfault2 Hfind Hmail out.
  assert (Hout : exists row,
             out = (inr {| SendContact.messageId := uuid4 rt;
                           SendContact.details_itemId := item_id;
                           SendContact.details_recipientEmail :=
                             userEmail item |},
                    Store.log (Store.PutItem row)
                      (Store.log (Store.GetItem item_id) w))).
  { subst out.
    unfold SendContact.lambda_handler, SendContact.contact, Store.try_except,
      Store.bind. simpl. unfold Validation.truthy.
    apply String.eqb_neq in Hi, Hm, Hmail. rewrite Hi, Hm. simpl.
    unfold Validation.check_length.
    destruct (Nat.ltb_spec 1000 (String.length message_text)); [lia|].
    simpl. unfold Store.get_item, Store.service at 1. rewrite Hfault1, Hfind.
    simpl. rewrite Hmail. simpl.
    unfold Store.put_item, Store.service. simpl.
    rewrite length_app. simpl. rewrite Hfault2. simpl.
    eexists. reflexivity. }
  destruct Hout as (row & ->). split; reflexivity.
Qed.

Lemma contact_write_fails_witness :
  let w := Store.mkWorld [] []
             [mkItem "I1" "Blue backpack" "lost" "u-alice"
                "alice@old.example.com" "Alice"]
             (fun n => if Nat.eqb n 1
                       then Some ("ResourceNotFoundException",
                                  "Requested resource not found")
                       else None) [] in
  fst (SendContact.lambda_handler sample_runtime
         (mkEvent (Some (mkClaims (Some "u-bob") (Some "bob@example.com") None))
            (mkBody (Some "I1") None (Some "I think I found it."))) w)
  = inr {| SendContact.messageId := uuid4 sample_runtime;
           SendContact.details_itemId := "I1";
           SendContact.details_recipientEmail := "alice@old.example.com" |}
  /\ Store.messages_table
       (snd (SendContact.lambda_handler sample_runtime
               (mkEvent
                  (Some (mkClaims (Some "u-bob") (Some "bob@example.com") None))
                  (mkBody (Some "I1") None (Some "I think I found it."))) w))
     = Store.messages_table w.
Proof.
  cbv zeta.
  apply (contact_reports_success_when_write_fails sample_runtime _
           "u-bob" "bob@example.com" None None "I1" "I think I found it."
           (mkItem "I1" "Blue backpack" "lost" "u-alice"
              "alice@old.example.com" "Alice")
           "ResourceNotFoundException" "Requested resource not found").
  - discriminate.
  - discriminate.
  - simpl. lia.
  - reflexivity.
  - reflexivity.
  - reflexivity.
  - discriminate.
Defined.

(** X23: whatever the event and the state, the first-contact handler leaves
    the index and the items table alone and appends at most one row to the
    messages table; that row is unread, has an item id and a message of at
    most 1000 characters, and its recipient's e-mail address differs from
    its sender's. *)
Theorem contact_appends_at_most_one_checked_row :
  forall (rt : Runtime) (event : Event) (w : Store.World),
    let w' := snd (SendContact.lambda_handler rt event w) in
    Store.recipient_index w' = Store.recipient_index w
    /\ Store.items_table w' = Store.items_table w
    /\ (Store.messages_table w' = Store.messages_table w
        \/ exists row,
             Store.messages_table w' = (Store.messages_table w ++ [row])%list
             /\ Outcome.contact_row_ok rt row).
Proof.
  intros rt [c [bi br bm]] w.
  destruct (SendContact.lambda_handler rt (mkEvent c (mkBody bi br bm)) w)
    as [res w'] eqn:H.
  simpl. revert H.
  unfold SendContact.lambda_handler, SendContact.contact, Store.try_except,
    Store.bind, Store.get_claims, Store.subscript. simpl.
  destruct c as [[[user_id|] [user_email|] nm]|]; simpl;
    try (intros [= <- <-]; repeat split; now left).
  destruct bi as [item_id|]; simpl;
    try (intros [= <- <-]; repeat split; now left).
  unfold Validation.truthy.
  destruct (String.eqb_spec item_id EmptyString) as [|Hi]; simpl;
    try (intros [= <- <-]; repeat split; now left).
  destruct bm as [message_text|]; simpl;
    try (intros [= <- <-]; repeat split; now left).
  destruct (String.eqb_spec message_text EmptyString) as [|Hm]; simpl;
    try (intros [= <- <-]; repeat split; now left).
  unfold Validation.check_length.
  destruct (Nat.ltb_spec 1000 (String.length message_text)) as [|Hlen]; simpl;
    try (intros [= <- <-]; repeat split; now left).
  unfold Store.get_item, Store.service at 1.
  destruct (Store.faults w (List.length (Store.calls w))) as [[code msg]|];
    simpl; try (intros [= <- <-]; repeat split; now left).
  destruct (find (fun it => String.eqb (item_row_id it) item_id)
              (Store.items_table w)) as [item|]; simpl;
    try (intros [= <- <-]; repeat split; now left).
  destruct (String.eqb_spec (userEmail item) user_email) as [|Hmail]; simpl;
    try (intros [= <- <-]; repeat split; now left).
  unfold Store.put_item, Store.service. simpl.
  destruct (Store.faults w
              (List.length (Store.calls w ++ [Store.GetItem item_id])))
    as [[code msg]|]; simpl;
    try (intros [= <- <-]; repeat split; now left).
  intros [= <- <-]. split; [reflexivity|]. split; [reflexivity|]. right.
  eexists. split; [reflexivity|].
  unfold Outcome.contact_row_ok. simpl. repeat split; assumption.
Qed.

Module CompositionFacts.
Import Store Effects Validation Conversation.

Lemma before_at_split (s : string) :
  exists rest,
    s = PyStr.before_at s ++ rest
    /\ no_at (PyStr.before_at s) = true
    /\ (rest = EmptyString \/ exists r, rest = String "@" r).
Proof.
  induction s as [|c s (rest & Heq & Hno & Hrest)]; simpl.
  - exists EmptyString. repeat split. now left.
  - destruct (Ascii.eqb_spec c "@"%char) as [->|Hc].
    + exists (String "@" s). repeat split. right. now exists s.
    + exists rest. simpl. rewrite <- Heq, Hno.
      apply Ascii.eqb_neq in Hc. rewrite Hc. repeat split. exact Hrest.
Qed.

(** The row of a first contact is one the scan of a reply between the same
    two users about the same item keeps. *)
Lemma contact_row_matches (rt : Runtime) (item_id : string) (item : Item)
  (user_id user_email user_name message_text : string) :
  SendReply.match_pair item_id (userId item) user_id
    (SendContact.message_record rt item_id item user_id user_email user_name
       message_text)
  = true.
Proof.
  unfold SendReply.match_pair. simpl.
  rewrite !String.eqb_refl. simpl. apply orb_true_r.
Qed.

End CompositionFacts.

(** X24: a first contact followed by the owner's reply.  In a state without
    faults whose messages table holds fewer than ten rows, once a first
    contact about an item has been stored, the reply of the item's owner to
    the sender about that item succeeds, whatever the index shows. *)
Theorem first_reply_after_contact_succeeds :
  forall (rt rt' : Runtime) (w : Store.World) (user_id user_email : string)
         (nm r : option string) (item_id message_text : string) (item : Item)
         (owner_email : string) (owner_nm : option string)
         (reply_text : string),
    Effects.no_faults w ->
    List.length (Store.messages_table w) < SendReply.scan_limit ->
    item_id <> EmptyString -> message_text <> EmptyString ->
    String.length message_text <= 1000 ->
    find (fun it => String.eqb (item_row_id it) item_id) (Store.items_table w)
    = Some item ->
    userEmail item <> user_email ->
    user_id <> EmptyString -> user_id <> userId item ->
    reply_text <> EmptyString -> String.length reply_text <= 1000 ->
    let w1 :=
      snd (SendContact.lambda_handler rt
             (mkEvent (Some (mkClaims (Some user_id) (Some user_email) nm))
                (mkBody (Some item_id) r (Some message_text))) w) in
    fst (SendReply.send_reply_message_in_existing_conversation_thread rt'
           (request (userId item) owner_email owner_nm item_id user_id
              reply_text) w1)
    = inr {| SendReply.messageId := uuid4 rt';
             SendReply.sentAt := utcnow rt' |}.
Proof.
  intros rt rt' w user_id user_email nm r item_id message_text item
    owner_email owner_nm reply_text Hw Hsmall Hi Hm Hlen Hfind Hmail Hu Hne
    Hrt Hrlen w1.
  subst w1.
  pose proof (ContactFacts.contact_run rt user_id user_email item_id
                message_text nm r item w Hw Hi Hm Hlen Hfind Hmail) as Hrun.
  cbv zeta in Hrun. rewrite Hrun. clear Hrun. simpl snd.
  set (row := SendContact.message_record rt item_id item user_id user_email
                (Validation.display_name
                   (mkClaims (Some user_id) (Some user_email) nm) user_email)
                message_text).
  set (w1 := Store.append_row row
               (Store.log (Store.PutItem row)
                  (Store.log (Store.GetItem item_id) w))).
  assert (Hw1 : Effects.no_faults w1) by (intros n; apply Hw).
  destruct (Effects.chain_result item_id (userId item) user_id w1)
    as [m|] eqn:Hchain.
  - now apply (OutcomeFacts.reply_resolves rt' (userId item) owner_email
                 item_id user_id reply_text owner_nm w1 m).
  - exfalso. unfold Effects.chain_result in Hchain.
    destruct (find (SendReply.match_received item_id user_id)
                (Store.index_rows (userId item) w1)); [discriminate|].
    destruct (find (SendReply.match_sent item_id (userId item))
                (Store.index_rows user_id w1)); [discriminate|].
    assert (Hin : In row (firstn SendReply.scan_limit
                            (Store.messages_table w1))).
    { rewrite firstn_all2.
      - simpl. apply in_or_app. right. now left.
      - simpl. rewrite length_app. simpl. unfold SendReply.scan_limit in *.
        lia. }
    pose proof (find_none _ _ Hchain row Hin) as Hno.
    unfold row in Hno.
    rewrite CompositionFacts.contact_row_matches in Hno. discriminate.
Qed.

Lemma first_reply_after_contact_witness :
  fst (SendReply.send_reply_message_in_existing_conversation_thread
         (mkRuntime "7f3c2a1e-0000-4000-8000-000000000002"
            "2026-02-01T09:05:00Z")
         (request "u-alice" "alice@new.example.com" None "I1" "u-bob"
            "Yes, where did you find it?")
         (snd (SendContact.lambda_handler sample_runtime
                 (mkEvent
                    (Some (mkClaims (Some "u-bob") (Some "bob@example.com")
                             None))
                    (mkBody (Some "I1") None (Some "I think I found it.")))
                 own_item_world)))
  = inr {| SendReply.messageId := "7f3c2a1e-0000-4000-8000-000000000002";
           SendReply.sentAt := "2026-02-01T09:05:00Z" |}.
Proof.
  apply (first_reply_after_contact_succeeds sample_runtime
           (mkRuntime "7f3c2a1e-0000-4000-8000-000000000002"
              "2026-02-01T09:05:00Z")
           own_item_world "u-bob" "bob@example.com" None None "I1"
           "I think I found it."
           (mkItem "I1" "Blue backpack" "lost" "u-alice"
              "alice@old.example.com" "Alice")
           "alice@new.example.com" None "Yes, where did you find it?").
  - intros n. reflexivity.
  - unfold SendReply.scan_limit. simpl. lia.
  - discriminate.
  - discriminate.
  - simpl. lia.
  - reflexivity.
  - discriminate.
  - discriminate.
  - simpl. discriminate.
  - discriminate.
  - simpl. lia.
Defined.

(** X25: without a [name] claim, the display name of the sender is the part
    of the e-mail address before its first [@]: it has no [@], and the
    address is that name followed by nothing or by [@] and the rest. *)
Theorem default_display_name_is_local_part :
  forall (c : Claims) (user_email : string),
    name c = None ->
    exists rest,
      user_email = Validation.display_name c user_email ++ rest
      /\ Conversation.no_at (Validation.display_name c user_email) = true
      /\ (rest = EmptyString \/ exists r, rest = String "@" r).
Proof.
  intros c user_email Hname. unfold Validation.display_name.
  rewrite Hname. apply CompositionFacts.before_at_split.
Qed.

Lemma default_display_name_witness :
  exists rest,
    "alice@example.com"
    = Validation.display_name
        (mkClaims (Some "u-alice") (Some "alice@example.com") None)
        "alice@example.com" ++ rest
    /\ Conversation.no_at
         (Validation.display_name
            (mkClaims (Some "u-alice") (Some "alice@example.com") None)
            "alice@example.com") = true
    /\ (rest = EmptyString \/ exists r, rest = String "@" r).
Proof.
  apply default_display_name_is_local_part. reflexivity.
Defined.

Module SharedViewFacts.
Import GetMessages Conversation.

Lemma cons_inv (A : Type) (a b : A) (l l' : list A) :
  a :: l = b :: l' -> a = b /\ l = l'.
Proof. intros [= -> ->]. now split. Qed.

Lemma pair_inv (A B : Type) (a c : A) (b d : B) :
  (a, b) = (c, d) -> a = c /\ b = d.
Proof. intros [= -> ->]. now split. Qed.

Lemma group_step_nil (user_id : string) (m : Message) :
  group_step user_id [] m
  = [(thread_id m, add_message user_id m (new_thread user_id m))].
Proof. reflexivity. Qed.

Lemma group_step_cons (user_id : string) (m : Message) (k : string)
  (t : Thread) (d : Threads) :
  group_step user_id ((k, t) :: d) m
  = if String.eqb (thread_id m) k
    then (thread_id m, add_message user_id m t) :: d
    else (k, t) :: group_step user_id d m.
Proof.
  unfold group_step. simpl. destruct (String.eqb (thread_id m) k); reflexivity.
Qed.

Lemma shared_view_add_message (u u' : string) (m : Message) (t t' : Thread) :
  shared_view t = shared_view t' ->
  shared_view (add_message u m t) = shared_view (add_message u' m t').
Proof.
  unfold shared_view. simpl. intros [= -> -> -> -> -> ->]. reflexivity.
Qed.

Lemma shared_view_sort_thread (t t' : Thread) :
  shared_view t = shared_view t' ->
  shared_view (sort_thread t) = shared_view (sort_thread t').
Proof.
  unfold shared_view. simpl. intros [= -> -> -> -> -> ->]. reflexivity.
Qed.

Lemma group_step_same_views (u u' : string) (m : Message) (d d' : Threads) :
  same_views d d' ->
  same_views (group_step u d m) (group_step u' d' m).
Proof.
  unfold same_views. revert d'.
  induction d as [|[k t] d IH]; intros [|[k' t'] d'] H; try discriminate.
  - rewrite !group_step_nil. reflexivity.
  - cbn [map fst snd] in H. apply cons_inv in H. destruct H as [Hkv Hrest].
    apply pair_inv in Hkv. destruct Hkv as [-> Hv].
    rewrite !group_step_cons.
    destruct (String.eqb (thread_id m) k'); cbn [map fst snd].
    + rewrite (shared_view_add_message u u' m t t' Hv). now rewrite Hrest.
    + rewrite Hv. f_equal. now apply IH.
Qed.

Lemma fold_group_step_same_views (u u' : string) (msgs : list Message)
  (d d' : Threads) :
  same_views d d' ->
  same_views (fold_left (group_step u) msgs d)
    (fold_left (group_step u') msgs d').
Proof.
  revert d d'. induction msgs as [|m msgs IH]; intros d d' H; simpl;
    [exact H|].
  apply IH. now apply group_step_same_views.
Qed.

Lemma sorted_values_same_views (d d' : Threads) :
  same_views d d' ->
  map shared_view (map sort_thread (dict_values d))
  = map shared_view (map sort_thread (dict_values d')).
Proof.
  unfold same_views, dict_values. revert d'.
  induction d as [|[k t] d IH]; intros [|[k' t'] d'] H; try discriminate;
    [reflexivity|].
  cbn [map fst snd] in *. apply cons_inv in H. destruct H as [Hkv Hrest].
  apply pair_inv in Hkv. destruct Hkv as [_ Hv].
  rewrite (shared_view_sort_thread t t' Hv). f_equal. now apply IH.
Qed.

Lemma insert_same_views (x x' : Thread) (l l' : list Thread) :
  shared_view x = shared_view x' ->
  map shared_view l = map shared_view l' ->
  map shared_view
    (PyList.insert
       (fun a b => String.leb (lastMessageTime b) (lastMessageTime a)) x l)
  = map shared_view
      (PyList.insert
         (fun a b => String.leb (lastMessageTime b) (lastMessageTime a)) x' l').
Proof.
  intros Hx. revert l'.
  induction l as [|y l IH]; intros [|y' l'] H; try discriminate;
    cbn [map PyList.insert].
  - now rewrite Hx.
  - cbn [map] in H. apply cons_inv in H. destruct H as [Hy Hrest].
    assert (Hlx : lastMessageTime x = lastMessageTime x')
      by (unfold shared_view in Hx; congruence).
    assert (Hly : lastMessageTime y = lastMessageTime y')
      by (unfold shared_view in Hy; congruence).
    rewrite Hlx, Hly.
    destruct (String.leb (lastMessageTime y') (lastMessageTime x'));
      cbn [map].
    + now rewrite Hx, Hy, Hrest.
    + rewrite Hy. f_equal. now apply IH.
Qed.

Lemma sort_same_views (l l' : list Thread) :
  map shared_view l = map shared_view l' ->
  map shared_view (PyList.sort_by_key_reverse lastMessageTime l)
  = map shared_view (PyList.sort_by_key_reverse lastMessageTime l').
Proof.
  unfold PyList.sort_by_key_reverse. revert l'.
  induction l as [|x l IH]; intros [|x' l'] H; try discriminate;
    [reflexivity|].
  cbn [map PyList.stable_sort] in *. apply cons_inv in H.
  destruct H as [Hx Hrest].
  apply insert_same_views; [exact Hx|now apply IH].
Qed.

End SharedViewFacts.

(** X26: from the same messages, the aggregator builds for any two
    requesting users the same threads in the same order, with the same ids,
    item fields, messages and last message times; only the other-user
    fields and the unread counts depend on who asks. *)
Theorem threads_look_alike_to_both_users :
  forall (user_id user_id' : string) (msgs : list Message),
    map Conversation.shared_view
      (GetMessages.threads (GetMessages.aggregate user_id msgs))
    = map Conversation.shared_view
        (GetMessages.threads (GetMessages.aggregate user_id' msgs))
    /\ GetMessages.totalThreads (GetMessages.aggregate user_id msgs)
       = GetMessages.totalThreads (GetMessages.aggregate user_id' msgs).
Proof.
  intros user_id user_id' msgs.
  assert (H : map Conversation.shared_view
                (GetMessages.threads (GetMessages.aggregate user_id msgs))
              = map Conversation.shared_view
                  (GetMessages.threads (GetMessages.aggregate user_id' msgs))).
  { unfold GetMessages.aggregate. simpl.
    apply SharedViewFacts.sort_same_views.
    apply SharedViewFacts.sorted_values_same_views.
    unfold GetMessages.group_messages.
    now apply SharedViewFacts.fold_group_step_same_views. }
  split; [exact H|].
  change (List.length (GetMessages.threads (GetMessages.aggregate user_id msgs))
          = List.length
              (GetMessages.threads (GetMessages.aggregate user_id' msgs))).
  rewrite <- (length_map Conversation.shared_view
                (GetMessages.threads (GetMessages.aggregate user_id msgs))).
  rewrite H. apply length_map.
Qed.
